(** * WeekWise: the week/subject/progress server and its admin and student
    clients, embedded in Rocq.

    The server ([supabase/functions/server/index.tsx]) is a set of Hono
    handlers over a key-value store ([kv_store.tsx]) with the operations
    [get], [set], [del] and [getByPrefix].  Request bodies and stored values
    are JSON documents; the handlers manipulate them as JavaScript objects,
    so the development models values as JSON with JavaScript's truthiness,
    strict equality, property access, template-literal conversion and object
    spread written out. *)

From Stdlib Require Import String Ascii ZArith List Lia Bool Sorted Permutation.
From stdpp Require Import base gmap strings list.

Set Warnings "-register-all".
Open Scope string_scope.
Import ListNotations.

(** ** JSON values *)

Inductive json : Type :=
| JNull
| JBool (b : bool)
| JNum (z : Z)            (** numbers: the model covers integral numbers *)
| JStr (s : string)
| JArr (l : list json)
| JObj (o : list (string * json)).

(** A JavaScript value read out of a JSON document: [None] is [undefined]. *)
Abbreviation jsval := (option json).

(** Truthiness ([if (x)], [!x], [x || d]). *)
Definition truthy (v : jsval) : bool :=
  match v with
  | None | Some JNull => false
  | Some (JBool b) => b
  | Some (JNum z) => negb (Z.eqb z 0)
  | Some (JStr s) => negb (String.eqb s "")
  | Some (JArr _) | Some (JObj _) => true
  end.

(** [x || d] for a JSON default [d]. *)
Definition or_else (v : jsval) (d : json) : json :=
  match v with
  | Some x => if truthy v then x else d
  | None => d
  end.

(** Property lookup in an object's own property list. *)
Fixpoint assoc (k : string) (o : list (string * json)) : jsval :=
  match o with
  | [] => None
  | (k', v) :: o' => if String.eqb k k' then Some v else assoc k o'
  end.

(** Property access [v.k] on a JSON value. *)
Definition prop (v : json) (k : string) : jsval :=
  match v with
  | JObj o => assoc k o
  | _ => None
  end.

Definition prop_opt (v : jsval) (k : string) : jsval :=
  match v with Some x => prop x k | None => None end.

(** Strict equality [v === JStr s] against a string. *)
Definition is_str (v : jsval) (s : string) : bool :=
  match v with Some (JStr s') => String.eqb s' s | _ => false end.

(** Property assignment [o[k] = v]: an existing key keeps its position,
    a new key is appended. *)
Fixpoint obj_set (k : string) (v : json) (o : list (string * json))
  : list (string * json) :=
  match o with
  | [] => [(k, v)]
  | (k', v') :: o' =>
      if String.eqb k k' then (k', v) :: o' else (k', v') :: obj_set k v o'
  end.

(** ** Strings *)

Fixpoint str_of_list (l : list ascii) : string :=
  match l with [] => EmptyString | c :: l' => String c (str_of_list l') end.

Fixpoint list_of_str (s : string) : list ascii :=
  match s with EmptyString => [] | String c s' => c :: list_of_str s' end.

(** Decimal rendering of a natural number (as [Number.prototype.toString]). *)
Fixpoint digits_aux (fuel : nat) (n : N) (acc : string) : string :=
  match fuel with
  | O => acc
  | S f =>
      let acc' := String (ascii_of_N (48 + N.modulo n 10)) acc in
      if N.eqb (N.div n 10) 0 then acc' else digits_aux f (N.div n 10) acc'
  end.

Definition string_of_N (n : N) : string := digits_aux (S (N.to_nat n)) n "".

Definition string_of_Z (z : Z) : string :=
  match z with
  | Zneg p => "-" ++ string_of_N (Npos p)
  | _ => string_of_N (Z.to_N z)
  end.

Fixpoint join (sep : string) (l : list string) : string :=
  match l with
  | [] => ""
  | [x] => x
  | x :: l' => x ++ sep ++ join sep l'
  end.

(** [String(v)], as used by template literals [`${v}`]. *)
Fixpoint js_to_string (v : json) : string :=
  match v with
  | JNull => "null"
  | JBool true => "true"
  | JBool false => "false"
  | JNum z => string_of_Z z
  | JStr s => s
  | JArr l =>
      (* Array.prototype.join: null and undefined elements print as "" *)
      join "," (map (fun e => match e with JNull => "" | _ => js_to_string e end) l)
  | JObj _ => "[object Object]"
  end.

Definition tmpl (v : jsval) : string :=
  match v with Some x => js_to_string x | None => "undefined" end.

(** ** The key-value store ([kv_store.tsx]) *)

Abbreviation store := (gmap string json).

Definition kv_get (k : string) (st : store) : jsval := st !! k.
Definition kv_set (k : string) (v : json) (st : store) : store := <[k := v]> st.
Definition kv_del (k : string) (st : store) : store := delete k st.

(** [getByPrefix]: the values of all keys starting with [p], in the order
    the table scan returns the rows. *)
Definition getByPrefix (p : string) (st : store) : list json :=
  map snd (filter (fun kv => String.prefix p kv.1 = true) (map_to_list st)).

(** ** Number coercion ([a.weekNumber - b.weekNumber]) *)

(** JavaScript's [WhiteSpace] and [LineTerminator] code points that fit in
    ASCII: tab, line feed, vertical tab, form feed, carriage return, space. *)
Definition is_js_space (c : ascii) : bool :=
  let n := nat_of_ascii c in
  (Nat.leb 9 n && Nat.leb n 13) || Nat.eqb n 32.

Fixpoint drop_space (l : list ascii) : list ascii :=
  match l with
  | c :: l' => if is_js_space c then drop_space l' else l
  | [] => []
  end.

(** [String.prototype.trim]. *)
Definition trim (s : string) : string :=
  str_of_list (rev (drop_space (rev (drop_space (list_of_str s))))).

Definition digit_val (c : ascii) : option Z :=
  let n := nat_of_ascii c in
  if Nat.leb 48 n && Nat.leb n 57 then Some (Z.of_nat (n - 48)) else None.

Fixpoint digits_value (acc : Z) (l : list ascii) : option Z :=
  match l with
  | [] => Some acc
  | c :: l' =>
      match digit_val c with
      | Some d => digits_value (acc * 10 + d) l'
      | None => None
      end
  end.

(** [Number(s)] on a string, for integral decimal literals: the trimmed
    empty string is 0, anything that is not an optionally signed run of
    decimal digits is NaN ([None]). *)
Definition str_to_number (s : string) : option Z :=
  match list_of_str (trim s) with
  | [] => Some 0%Z
  | "-"%char :: (_ :: _) as l => option_map Z.opp (digits_value 0 (tl l))
  | "+"%char :: (_ :: _) as l => digits_value 0 (tl l)
  | l => digits_value 0 l
  end.

(** [Number(v)]: [None] is NaN. *)
Definition to_number (v : jsval) : option Z :=
  match v with
  | None => None
  | Some JNull => Some 0%Z
  | Some (JBool b) => Some (if b then 1%Z else 0%Z)
  | Some (JNum z) => Some z
  | Some (JStr s) => str_to_number s
  | Some (JArr _ as a) => str_to_number (js_to_string a)
  | Some (JObj _) => None
  end.

(** ** Object spread [{ ...a, ...b }] *)

Fixpoint index_keys {A} (f : A -> json) (i : nat) (l : list A)
  : list (string * json) :=
  match l with
  | [] => []
  | x :: l' => (string_of_N (N.of_nat i), f x) :: index_keys f (S i) l'
  end.

(** The own enumerable properties copied by [...v]. *)
Definition spread_src (v : json) : list (string * json) :=
  match v with
  | JObj o => o
  | JArr l => index_keys id 0 l
  | JStr s => index_keys (fun c => JStr (String c EmptyString)) 0 (list_of_str s)
  | _ => []
  end.

Definition spread_into (o : list (string * json)) (v : json)
  : list (string * json) :=
  fold_left (fun acc kv => obj_set kv.1 kv.2 acc) (spread_src v) o.

(** [{ ...a, ...b }] *)
Definition spread2 (a b : json) : json := JObj (spread_into (spread_src a) b).

(** ** Requests, responses, the environment *)

Record response := mkResponse { status : Z; body : json }.

Definition err (code : Z) (msg : string) : response :=
  mkResponse code (JObj [("error", JStr msg)]).

(** What a handler observes besides the store: the identity provider's
    token check [supabase.auth.getUser] (the verified user's id, or
    [None] when it reports an error or no user), the current time
    [new Date().toISOString()] and the [Date.now()_random] suffix of a
    fresh identifier. *)
Record env := mkEnv {
  getUser : string -> option string;
  now : string;
  fresh : string
}.

(** [String.prototype.split(" ")]. *)
Fixpoint split_sp_aux (cur : list ascii) (l : list ascii) : list string :=
  match l with
  | [] => [str_of_list (rev cur)]
  | c :: l' =>
      if Ascii.eqb c " "%char then str_of_list (rev cur) :: split_sp_aux [] l'
      else split_sp_aux (c :: cur) l'
  end.

Definition split_sp (s : string) : list string := split_sp_aux [] (list_of_str s).

(** [c.req.header('Authorization')?.split(' ')[1]] *)
Definition bearer_token (authorization : option string) : option string :=
  match authorization with
  | None => None
  | Some h => nth_error (split_sp h) 1
  end.

Definition unauthorized : response := err 401 "Unauthorized".
Definition admin_required : response := err 403 "Admin access required".

(** The prelude of every authenticated handler:
<<
    const accessToken = c.req.header('Authorization')?.split(' ')[1];
    if (!accessToken) return c.json({ error: 'Unauthorized' }, 401);
    const { data: { user }, error: authError } = await supabase.auth.getUser(accessToken);
    if (authError || !user) return c.json({ error: 'Unauthorized' }, 401);
>>  *)
Definition authenticate (E : env) (authorization : option string)
  : response + string :=
  match bearer_token authorization with
  | None => inl unauthorized
  | Some tok =>
      if String.eqb tok "" then inl unauthorized
      else match getUser E tok with
           | None => inl unauthorized
           | Some uid => inr uid
           end
  end.

(** The admin prelude, continuing [authenticate]:
<<
    const userProfile = await kv.get(`users:${user.id}`);
    if (!userProfile || userProfile.role !== 'admin')
      return c.json({ error: 'Admin access required' }, 403);
>>  *)
Definition authorize_admin (E : env) (st : store) (authorization : option string)
  : response + string :=
  match authenticate E authorization with
  | inl r => inl r
  | inr uid =>
      let userProfile := kv_get ("users:" ++ uid) st in
      if negb (truthy userProfile) || negb (is_str (prop_opt userProfile "role") "admin")
      then inl admin_required
      else inr uid
  end.

(** [await c.req.json()] followed by destructuring [const { a, b } = ...]:
    destructuring [null] throws, which the handler's [catch] turns into a
    500 response. *)
Definition field (body : json) (k : string) : jsval := prop body k.

Definition ok (o : list (string * json)) : response := mkResponse 200 (JObj o).

(** A destructured field known to be present (it passed a truthiness test). *)
Definition present (v : jsval) : json :=
  match v with Some x => x | None => JNull end.

(** ** Subject endpoints *)

(** [POST /admin/subjects] *)
Definition create_subject (E : env) (st : store) (authorization : option string)
  (req : option json) : response * store :=
  match authorize_admin E st authorization with
  | inl r => (r, st)
  | inr _ =>
      match req with
      | None | Some JNull => (err 500 "Failed to create subject", st)
      | Some b =>
          let name := field b "name" in
          let description := field b "description" in
          if negb (truthy name) then (err 400 "Subject name is required", st)
          else
            let subjectId := "subject_" ++ fresh E in
            let subject := JObj [("id", JStr subjectId); ("name", present name);
                                 ("description", or_else description (JStr ""));
                                 ("createdAt", JStr (now E))] in
            (ok [("success", JBool true); ("subject", subject)],
             kv_set ("subjects:" ++ subjectId) subject st)
      end
  end.

(** [GET /subjects] *)
Definition list_subjects (st : store) : list json := getByPrefix "subjects:" st.

(** [DELETE /admin/subjects/:id]
<<
    await kv.del(`subjects:${subjectId}`);
    const weeks = await kv.getByPrefix(`weeks:${subjectId}:`);
    for (const week of weeks) await kv.del(`weeks:${subjectId}:${week.id}`);
>>  *)
Definition delete_subject (E : env) (st : store) (authorization : option string)
  (subjectId : string) : response * store :=
  match authorize_admin E st authorization with
  | inl r => (r, st)
  | inr _ =>
      let st1 := kv_del ("subjects:" ++ subjectId) st in
      let weeks := getByPrefix ("weeks:" ++ subjectId ++ ":") st1 in
      let st2 := fold_left (fun s week =>
                   kv_del ("weeks:" ++ subjectId ++ ":" ++ tmpl (prop week "id")) s)
                   weeks st1 in
      (ok [("success", JBool true)], st2)
  end.

(** ** Week endpoints *)

(** [POST /admin/weeks] *)
Definition create_week (E : env) (st : store) (authorization : option string)
  (req : option json) : response * store :=
  match authorize_admin E st authorization with
  | inl r => (r, st)
  | inr _ =>
      match req with
      | None | Some JNull => (err 500 "Failed to create week", st)
      | Some b =>
          let subjectId := field b "subjectId" in
          let weekNumber := field b "weekNumber" in
          let title := field b "title" in
          let videoLinks := field b "videoLinks" in
          let audioLinks := field b "audioLinks" in
          let pdfLinks := field b "pdfLinks" in
          let questions := field b "questions" in
          let published := field b "published" in
          if negb (truthy subjectId) || negb (truthy weekNumber) || negb (truthy title)
          then (err 400 "Missing required fields", st)
          else
            let weekId := "week_" ++ fresh E in
            let week := JObj [("id", JStr weekId);
                              ("subjectId", present subjectId);
                              ("weekNumber", present weekNumber);
                              ("title", present title);
                              ("videoLinks", or_else videoLinks (JArr []));
                              ("audioLinks", or_else audioLinks (JArr []));
                              ("pdfLinks", or_else pdfLinks (JArr []));
                              ("questions", or_else questions (JArr []));
                              ("published", or_else published (JBool false));
                              ("createdAt", JStr (now E))] in
            (ok [("success", JBool true); ("week", week)],
             kv_set ("weeks:" ++ tmpl subjectId ++ ":" ++ weekId) week st)
      end
  end.

(** [allWeeks.find(w => w.id === weekId)] *)
Definition find_week (weekId : string) (weeks : list json) : option json :=
  List.find (fun w => is_str (prop w "id") weekId) weeks.

(** [PUT /admin/weeks/:id]
<<
    const allWeeks = await kv.getByPrefix('weeks:');
    const week = allWeeks.find(w => w.id === weekId);
    if (!week) return c.json({ error: 'Week not found' }, 404);
    const updatedWeek = { ...week, ...updates };
    await kv.set(`weeks:${week.subjectId}:${weekId}`, updatedWeek);
>>  *)
Definition update_week (E : env) (st : store) (authorization : option string)
  (weekId : string) (req : option json) : response * store :=
  match authorize_admin E st authorization with
  | inl r => (r, st)
  | inr _ =>
      match req with
      | None => (err 500 "Failed to update week", st)
      | Some updates =>
          match find_week weekId (getByPrefix "weeks:" st) with
          | None => (err 404 "Week not found", st)
          | Some week =>
              let updatedWeek := spread2 week updates in
              (ok [("success", JBool true); ("week", updatedWeek)],
               kv_set ("weeks:" ++ tmpl (prop week "subjectId") ++ ":" ++ weekId)
                      updatedWeek st)
          end
      end
  end.

(** [DELETE /admin/weeks/:id] *)
Definition delete_week (E : env) (st : store) (authorization : option string)
  (weekId : string) : response * store :=
  match authorize_admin E st authorization with
  | inl r => (r, st)
  | inr _ =>
      match find_week weekId (getByPrefix "weeks:" st) with
      | None => (err 404 "Week not found", st)
      | Some week =>
          (ok [("success", JBool true)],
           kv_del ("weeks:" ++ tmpl (prop week "subjectId") ++ ":" ++ weekId) st)
      end
  end.

(** [(a, b) => a.weekNumber - b.weekNumber] is negative; a NaN difference
    is not. *)
Definition week_number (w : json) : option Z := to_number (prop w "weekNumber").

Definition by_week_number_lt (a b : json) : bool :=
  match week_number a, week_number b with
  | Some x, Some y => Z.ltb (x - y) 0
  | _, _ => false
  end.

(** [Array.prototype.sort] is stable (ES2019); it is modelled as a stable
    insertion sort: each element goes before the first element of the
    already sorted prefix that it compares below. *)
Fixpoint insert_sorted (x : json) (l : list json) : list json :=
  match l with
  | [] => [x]
  | y :: l' => if by_week_number_lt x y then x :: y :: l' else y :: insert_sorted x l'
  end.

Definition sort_by_week_number (l : list json) : list json :=
  fold_left (fun acc x => insert_sorted x acc) l [].

(** [GET /weeks/:subjectId]: the [weeks] array of the response. *)
Definition list_weeks (st : store) (subjectId : string) : list json :=
  sort_by_week_number (getByPrefix ("weeks:" ++ subjectId ++ ":") st).

(** ** Progress endpoints *)

(** [POST /progress] *)
Definition save_progress (E : env) (st : store) (authorization : option string)
  (req : option json) : response * store :=
  match authenticate E authorization with
  | inl r => (r, st)
  | inr uid =>
      match req with
      | None | Some JNull => (err 500 "Failed to save progress", st)
      | Some b =>
          let weekId := field b "weekId" in
          let completed := field b "completed" in
          (* JSON storage drops a property whose value is undefined *)
          let progress := JObj ([("userId", JStr uid)] ++
                                match weekId with Some w => [("weekId", w)] | None => [] end ++
                                [("completed", or_else completed (JBool false));
                                 ("lastAccessed", JStr (now E))]) in
          (ok [("success", JBool true); ("progress", progress)],
           kv_set ("progress:" ++ uid ++ ":" ++ tmpl weekId) progress st)
      end
  end.

(** [GET /progress]: the [progress] array of the response. *)
Definition get_progress (E : env) (st : store) (authorization : option string)
  : response :=
  match authenticate E authorization with
  | inl r => r
  | inr uid => ok [("progress", JArr (getByPrefix ("progress:" ++ uid ++ ":") st))]
  end.

(** ** The admin client ([AdminDashboard.tsx]) *)

Record ContentItem := mkContentItem { url : string; title : string }.

Definition content_json (c : ContentItem) : json :=
  JObj [("url", JStr (url c)); ("title", JStr (title c))].

(** The week editor's form state [weekForm]. *)
Record WeekForm := mkWeekForm {
  wf_weekNumber : Z;
  wf_title : string;
  wf_description : string;
  wf_published : bool;
  wf_videoLinks : list ContentItem;
  wf_audioLinks : list ContentItem;
  wf_pdfLinks : list ContentItem;
  wf_questions : list json
}.

Definition week_form_json (f : WeekForm) : json :=
  JObj [("weekNumber", JNum (wf_weekNumber f));
        ("title", JStr (wf_title f));
        ("description", JStr (wf_description f));
        ("published", JBool (wf_published f));
        ("videoLinks", JArr (map content_json (wf_videoLinks f)));
        ("audioLinks", JArr (map content_json (wf_audioLinks f)));
        ("pdfLinks", JArr (map content_json (wf_pdfLinks f)));
        ("questions", JArr (wf_questions f))].

(** [l => l.url.trim()] as a filter predicate. *)
Definition url_not_blank (c : ContentItem) : bool := negb (String.eqb (trim (url c)) "").

(** [createOrUpdateWeek]'s request body:
<<
    const weekData = {
      ...weekForm,
      subjectId: selectedSubject!.id,
      videoLinks: weekForm.videoLinks.filter(l => l.url.trim()),
      audioLinks: weekForm.audioLinks.filter(l => l.url.trim()),
      pdfLinks: weekForm.pdfLinks.filter(l => l.url.trim()),
    };
>>  sent through [JSON.stringify], which these values survive unchanged. *)
Definition client_week_data (f : WeekForm) (selectedSubjectId : string) : json :=
  JObj (obj_set "pdfLinks" (JArr (map content_json (filter url_not_blank (wf_pdfLinks f))))
       (obj_set "audioLinks" (JArr (map content_json (filter url_not_blank (wf_audioLinks f))))
       (obj_set "videoLinks" (JArr (map content_json (filter url_not_blank (wf_videoLinks f))))
       (obj_set "subjectId" (JStr selectedSubjectId)
          (spread_src (week_form_json f)))))).

(** [createOrUpdateWeek] when no week is being edited: [POST /admin/weeks]. *)
Definition submit_new_week (E : env) (st : store) (authorization : option string)
  (f : WeekForm) (selectedSubjectId : string) : response * store :=
  create_week E st authorization (Some (client_week_data f selectedSubjectId)).

(** [togglePublish(week)]'s request body [{ ...week, published: !week.published }]. *)
Definition toggle_payload (week : json) : json :=
  JObj (obj_set "published" (JBool (negb (truthy (prop week "published"))))
          (spread_src week)).

(** [togglePublish(week)]: [PUT /admin/weeks/${week.id}]. *)
Definition toggle_publish (E : env) (st : store) (authorization : option string)
  (week : json) : response * store :=
  update_week E st authorization (tmpl (prop week "id")) (Some (toggle_payload week)).

(** ** The student client ([StudentDashboard.tsx]) *)

(** [loadWeeks]: [(data.weeks || []).filter(w => w.published).sort(...)]. *)
Definition student_weeks (weeks : list json) : list json :=
  sort_by_week_number (filter (fun w => truthy (prop w "published") = true) weeks).

(** *** Quiz scoring *)

Record Question := mkQuestion {
  q_type : option string;          (** [type?: "mcq" | "short_answer"] *)
  q_question : string;
  q_options : option (list string);
  q_correctAnswer : option Z;      (** [correctAnswer?: number] *)
  q_sampleAnswer : option string
}.

(** A value of [answers: { [key: number]: number | string }]. *)
Inductive answer := ANum (n : Z) | AStr (s : string).

(** [answers[i] === q.correctAnswer]: [undefined === undefined] holds. *)
Definition answer_eq (a : option answer) (c : option Z) : bool :=
  match a, c with
  | None, None => true
  | Some (ANum n), Some m => Z.eqb n m
  | _, _ => false
  end.

(** [q => q.type === "mcq" || !q.type] *)
Definition is_mcq (q : Question) : bool :=
  match q_type q with
  | None => true
  | Some t => String.eqb t "mcq" || String.eqb t ""
  end.

(** The questions of [selectedWeek.questions] are objects compared by
    reference in [findIndex(question => question === q)]: a question is a
    reference [nat] into the heap [deref]. *)
Fixpoint find_index (r : nat) (qs : list nat) : option nat :=
  match qs with
  | [] => None
  | r' :: qs' => if Nat.eqb r r' then Some 0 else option_map S (find_index r qs')
  end.

(** [calculateScore] for a selected week:
<<
    const mcqQuestions = selectedWeek.questions.filter(q => q.type === "mcq" || !q.type);
    mcqQuestions.forEach((q, idx) => {
      const questionIndex = selectedWeek.questions.findIndex(question => question === q);
      if (answers[questionIndex] === q.correctAnswer) correct++;
    });
    return { correct, total: mcqQuestions.length };
>>  ([findIndex] of a member never yields -1). *)
Definition calculate_score (deref : nat -> Question) (questions : list nat)
  (answers : gmap nat answer) : nat * nat :=
  let mcqQuestions := filter (fun r => is_mcq (deref r) = true) questions in
  let correct := fold_left (fun n r =>
      let a := match find_index r questions with
               | Some i => answers !! i
               | None => None
               end in
      if answer_eq a (q_correctAnswer (deref r)) then S n else n) mcqQuestions 0 in
  (correct, length mcqQuestions).

(** *** YouTube id extraction

<<
    const regExp = /^.*((youtu.be\/)|(v\/)|(\/u\/\w\/)|(embed\/)|(watch\?))\??v?=?([^#&?]* ).*/;
    const match = url.match(regExp);
    return match && match[7].length === 11 ? match[7] : null;
>>  (the space inside the last group is added here to keep the comment open;
    the source has none).
    Matching follows JavaScript's backtracking order: the leading [.*]
    (which stops at a line terminator) first takes the longest prefix and
    gives back one character at a time; at each position the alternatives
    are tried left to right.  Everything after the alternation always
    succeeds ([\??v?=?] and group 7 greedily, then [.*]), so the first
    position and alternative that match determine [match[7]]. *)

Definition is_line_terminator (c : ascii) : bool :=
  Ascii.eqb c "010"%char || Ascii.eqb c "013"%char.

(** [\w] *)
Definition is_word_char (c : ascii) : bool :=
  let n := nat_of_ascii c in
  (Nat.leb 48 n && Nat.leb n 57) || (Nat.leb 65 n && Nat.leb n 90) ||
  (Nat.leb 97 n && Nat.leb n 122) || Nat.eqb n 95.

Fixpoint starts_with (p l : list ascii) : bool :=
  match p, l with
  | [], _ => true
  | c :: p', c' :: l' => Ascii.eqb c c' && starts_with p' l'
  | _ :: _, [] => false
  end.

Definition char_at (test : ascii -> bool) (i : nat) (l : list ascii) : bool :=
  match nth_error l i with Some c => test c | None => false end.

(** The length of the alternative of group 1 matching at the head of [l]:
    [youtu.be\/] (its [.] any character but a line terminator), [v\/],
    [\/u\/\w\/], [embed\/], [watch\?], tried in this order. *)
Definition alt_match (l : list ascii) : option nat :=
  if starts_with (list_of_str "youtu") l
     && char_at (fun c => negb (is_line_terminator c)) 5 l
     && starts_with (list_of_str "be/") (drop 6 l) then Some 9
  else if starts_with (list_of_str "v/") l then Some 2
  else if starts_with (list_of_str "/u/") l && char_at is_word_char 3 l
          && starts_with (list_of_str "/") (drop 4 l) then Some 5
  else if starts_with (list_of_str "embed/") l then Some 6
  else if starts_with (list_of_str "watch?") l then Some 6
  else None.

Definition skip_opt (c : ascii) (l : list ascii) : list ascii :=
  match l with
  | c' :: l' => if Ascii.eqb c c' then l' else l
  | [] => []
  end.

(** Group 7: the longest run without [#], [&] or [?]. *)
Fixpoint id_run (l : list ascii) : list ascii :=
  match l with
  | c :: l' =>
      if Ascii.eqb c "#" || Ascii.eqb c "&" || Ascii.eqb c "?" then [] else c :: id_run l'
  | [] => []
  end%char.

(** The number of characters [.*] can take from the start. *)
Fixpoint line_length (l : list ascii) : nat :=
  match l with
  | c :: l' => if is_line_terminator c then 0 else S (line_length l')
  | [] => 0
  end.

Fixpoint match_from (i : nat) (l : list ascii) : option (list ascii) :=
  let here :=
    match alt_match (drop i l) with
    | Some n => Some (id_run (skip_opt "=" (skip_opt "v" (skip_opt "?" (drop (i + n) l)))))
    | None => None
    end%char in
  match here with
  | Some g => Some g
  | None => match i with O => None | S i' => match_from i' l end
  end.

(** [match[7]], or [None] when the regular expression does not match. *)
Definition youtube_group (u : string) : option string :=
  let l := list_of_str u in
  option_map str_of_list (match_from (line_length l) l).

Definition extractYouTubeId (u : string) : option string :=
  match youtube_group u with
  | Some g => if Nat.eqb (String.length g) 11 then Some g else None
  | None => None
  end.

(** ** Specification-side definitions *)

(** The admin-gated endpoints. *)
Inductive admin_call :=
| CreateSubject (req : option json)
| DeleteSubject (subjectId : string)
| CreateWeek (req : option json)
| UpdateWeek (weekId : string) (req : option json)
| DeleteWeek (weekId : string).

Definition run_admin (E : env) (st : store) (authorization : option string)
  (c : admin_call) : response * store :=
  match c with
  | CreateSubject req => create_subject E st authorization req
  | DeleteSubject i => delete_subject E st authorization i
  | CreateWeek req => create_week E st authorization req
  | UpdateWeek i req => update_week E st authorization i req
  | DeleteWeek i => delete_week E st authorization i
  end.

(** The bearer token is missing (no header, no second word, or empty) or
    the identity provider does not verify it. *)
Definition token_rejected (E : env) (authorization : option string) : Prop :=
  match bearer_token authorization with
  | None => True
  | Some tok => tok = "" \/ getUser E tok = None
  end.

(** The caller's profile is missing or its role is not ['admin']. *)
Definition not_admin (st : store) (uid : string) : Prop :=
  let p := kv_get ("users:" ++ uid) st in
  ~ (truthy p = true /\ is_str (prop_opt p "role") "admin" = true).

(** Quiz scoring as the specification words it: the [i]-th question is an
    MCQ question and the selected option index equals its [correctAnswer]. *)
Definition spec_mcq_correct (deref : nat -> Question) (questions : list nat)
  (answers : gmap nat answer) (i : nat) : bool :=
  match questions !! i with
  | Some r =>
      is_mcq (deref r) &&
      match answers !! i, q_correctAnswer (deref r) with
      | Some (ANum n), Some c => Z.eqb n c
      | _, _ => false
      end
  | None => false
  end.

(** The YouTube pattern as the specification words it. A marker is
    [youtu<c>be/] with [c] any character but a line terminator, [v/],
    [/u/<word character>/], [embed/] or [watch?]. *)
Definition yt_marker (m : list ascii) : Prop :=
  (exists c, m = (list_of_str "youtu" ++ c :: list_of_str "be/")%list
             /\ is_line_terminator c = false)
  \/ m = list_of_str "v/"
  \/ (exists c, m = (list_of_str "/u/" ++ c :: list_of_str "/")%list /\ is_word_char c = true)
  \/ m = list_of_str "embed/"
  \/ m = list_of_str "watch?".

(** Text before any line terminator of the URL. *)
Definition on_first_line (pre : list ascii) : Prop :=
  forall c, In c pre -> is_line_terminator c = false.

(** The characters that end the token: [#], [&] and [?]. *)
Definition yt_sep (c : ascii) : bool :=
  (Ascii.eqb c "#" || Ascii.eqb c "&" || Ascii.eqb c "?")%char.

(** [l'] is [l] with the character [c] taken off its head when it is there. *)
Definition opt_taken (c : ascii) (l l' : list ascii) : Prop :=
  l = c :: l' \/ (l' = l /\ hd_error l <> Some c).

(** What follows a marker: an optional [?], an optional [v] and an optional
    [=] (each taken when present), then the token [g], the longest run of
    characters other than [#], [&] and [?]. *)
Definition yt_token (rest g : list ascii) : Prop :=
  exists r1 r2 r3 tail,
    opt_taken "?"%char rest r1 /\ opt_taken "v"%char r1 r2 /\ opt_taken "="%char r2 r3
    /\ r3 = (g ++ tail)%list
    /\ (forall c, In c g -> yt_sep c = false)
    /\ (tail = [] \/ exists c t, tail = c :: t /\ yt_sep c = true).

(** [l] splits as [pre ++ m ++ rest] with a marker [m] starting on the first
    line, no marker starts on the first line further right, and [g] is the
    token read from [rest]. *)
Definition yt_rightmost (l g : list ascii) : Prop :=
  exists pre m rest,
    l = (pre ++ m ++ rest)%list /\ on_first_line pre /\ yt_marker m /\ yt_token rest g
    /\ forall pre' m' rest', l = (pre' ++ m' ++ rest')%list -> on_first_line pre' ->
         yt_marker m' -> length pre' <= length pre.

(** No marker starts on the first line of [l]. *)
Definition yt_no_marker (l : list ascii) : Prop :=
  forall pre m rest, l = (pre ++ m ++ rest)%list -> on_first_line pre -> ~ yt_marker m.

(** Adjacent weeks in ascending [weekNumber] order. *)
Definition week_le (a b : json) : Prop :=
  exists x y, week_number a = Some x /\ week_number b = Some y /\ (x <= y)%Z.

Definition has_week_number (z : Z) (w : json) : bool :=
  match week_number w with Some y => Z.eqb y z | None => false end.

(** *** Progress ([StudentDashboard.tsx])

    [saveProgress(weekId, completed)] posts
    [JSON.stringify({ weekId, completed })] to [POST /progress]. *)
Definition saveProgress (E : env) (st : store) (authorization : option string)
  (weekId : string) (completed : bool) : response * store :=
  save_progress E st authorization
    (Some (JObj [("weekId", JStr weekId); ("completed", JBool completed)])).

(** The progress records of user [s] for week [w]: the entries of the
    [GET /progress] listing of [s] (keys under [progress:<s>:]) whose
    [weekId] is [w], in scan order. *)
Definition progress_records (s w : string) (st : store) : list json :=
  map snd (filter (fun kv => (String.prefix ("progress:" ++ s ++ ":") kv.1
                              && is_str (prop kv.2 "weekId") w) = true)
                  (map_to_list st)).

(** A week whose [weekNumber] coerces to a number. *)
Definition numeric (w : json) : Prop := exists z, week_number w = Some z.

(** ** Account endpoints *)

(** The identity provider's
    [supabase.auth.admin.createUser({ email, password, user_metadata,
    email_confirm: true })], given the email, the password and the
    metadata: the new user's id, or the provider's error message. *)
Record provider := mkProvider { createUser : json -> json -> json -> string + string }.

(** The common tail of [POST /signup] and [POST /admin/signup]:
<<
    const { data: authData, error: authError } = await supabase.auth.admin.createUser(...);
    if (authError) return c.json({ error: authError.message }, 400);
    await kv.set(`users:${authData.user.id}`, { id, email, name, role, createdAt });
    return c.json({ success: true, user: { id, email, name, role } });
>>  *)
Definition create_account (E : env) (P : provider) (st : store)
  (email password name : json) (role : string) : response * store :=
  match createUser P email password (JObj [("name", name); ("role", JStr role)]) with
  | inl msg => (err 400 msg, st)
  | inr id =>
      (ok [("success", JBool true);
           ("user", JObj [("id", JStr id); ("email", email); ("name", name);
                          ("role", JStr role)])],
       kv_set ("users:" ++ id)
              (JObj [("id", JStr id); ("email", email); ("name", name);
                     ("role", JStr role); ("createdAt", JStr (now E))]) st)
  end.

(** [POST /signup] *)
Definition signup (E : env) (P : provider) (st : store) (req : option json)
  : response * store :=
  match req with
  | None | Some JNull => (err 500 "Signup failed", st)
  | Some b =>
      let email := field b "email" in
      let password := field b "password" in
      let name := field b "name" in
      if negb (truthy email) || negb (truthy password) || negb (truthy name)
      then (err 400 "Missing required fields", st)
      else create_account E P st (present email) (present password) (present name) "student"
  end.

(** [POST /admin/signup]: [if (adminSecret !== 'admin123')] comes first. *)
Definition admin_signup (E : env) (P : provider) (st : store) (req : option json)
  : response * store :=
  match req with
  | None | Some JNull => (err 500 "Admin signup failed", st)
  | Some b =>
      let email := field b "email" in
      let password := field b "password" in
      let name := field b "name" in
      let adminSecret := field b "adminSecret" in
      if negb (is_str adminSecret "admin123") then (err 403 "Invalid admin secret", st)
      else if negb (truthy email) || negb (truthy password) || negb (truthy name)
      then (err 400 "Missing required fields", st)
      else create_account E P st (present email) (present password) (present name) "admin"
  end.

(** [GET /user] *)
Definition get_user (E : env) (st : store) (authorization : option string) : response :=
  match authenticate E authorization with
  | inl r => r
  | inr uid =>
      let userProfile := kv_get ("users:" ++ uid) st in
      if negb (truthy userProfile) then err 404 "User profile not found"
      else mkResponse 200 (JObj [("user", present userProfile)])
  end.

(** ** More of the student client *)

(** [loadProgress]: [setProgressData(data.progress || [])] with the body
    of [GET /progress] (an error body has no [progress] and gives [[]]). *)
Definition loadProgress (E : env) (st : store) (authorization : option string)
  : list json :=
  match or_else (prop (body (get_progress E st authorization)) "progress") (JArr []) with
  | JArr l => l
  | _ => []
  end.

(** [progressData.some(p => p.weekId === weekId && p.completed)] *)
Definition isWeekCompleted (progressData : list json) (weekId : string) : bool :=
  existsb (fun p => is_str (prop p "weekId") weekId && truthy (prop p "completed")) progressData.

(** [progressData.some(p => p.weekId === weekId)] *)
Definition isWeekStarted (progressData : list json) (weekId : string) : bool :=
  existsb (fun p => is_str (prop p "weekId") weekId) progressData.

Inductive week_status := Completed | Current | Locked | Available.

(** [getWeekStatus(week, index)] for the week with id [weekId] at
    position [index] of [weeks] (given by the weeks' ids). *)
Definition getWeekStatus (progressData : list json) (weeks : list string)
  (weekId : string) (index : nat) : week_status :=
  if isWeekCompleted progressData weekId then Completed
  else match index with
       | O => if isWeekStarted progressData weekId then Current else Available
       | S i =>
           match nth_error weeks i with
           | Some previousWeek =>
               if isWeekCompleted progressData previousWeek
               then (if isWeekStarted progressData weekId then Current else Available)
               else Available
           | None => Available
           end
       end.

(** [handleSubmitQuiz] for the selected week: [saveProgress(id, true)],
    then the [loadProgress()] that [saveProgress] starts. *)
Definition handleSubmitQuiz (E : env) (st : store) (authorization : option string)
  (weekId : string) : store * list json :=
  let st' := (saveProgress E st authorization weekId true).2 in
  (st', loadProgress E st' authorization).

(** *** [extractGoogleDriveId]
<<
    const match = url.match(/\/d\/([a-zA-Z0-9_-]+)/);
    if (match) return match[1];
    const idMatch = url.match(/[?&]id=([a-zA-Z0-9_-]+)/);
    return idMatch ? idMatch[1] : null;
>>  *)

(** [[a-zA-Z0-9_-]]: a word character or [-]. *)
Definition is_drive_id_char (c : ascii) : bool := is_word_char c || Ascii.eqb c "-"%char.

(** The longest run of [[a-zA-Z0-9_-]] characters at the head of [l]. *)
Fixpoint drive_run (l : list ascii) : list ascii :=
  match l with
  | c :: l' => if is_drive_id_char c then c :: drive_run l' else []
  | [] => []
  end.

(** A match at the head of [l] of one of the literals [ps] (tried in
    order) followed by [([a-zA-Z0-9_-]+)]: the captured group. *)
Fixpoint capture_at (ps : list (list ascii)) (l : list ascii) : option (list ascii) :=
  match ps with
  | [] => None
  | p :: ps' =>
      if starts_with p l then
        match drive_run (drop (length p) l) with
        | [] => capture_at ps' l
        | r => Some r
        end
      else capture_at ps' l
  end.

(** The leftmost match: start positions are tried from the left. *)
Fixpoint first_capture (ps : list (list ascii)) (l : list ascii) : option (list ascii) :=
  match capture_at ps l with
  | Some r => Some r
  | None => match l with [] => None | _ :: l' => first_capture ps l' end
  end.

Definition extractGoogleDriveId (url : string) : option string :=
  let l := list_of_str url in
  match first_capture [list_of_str "/d/"] l with
  | Some r => Some (str_of_list r)
  | None => option_map str_of_list (first_capture [list_of_str "?id="; list_of_str "&id="] l)
  end.

(** *** Content links

    A stored link is a [ContentItem] or, in weeks saved by the older
    editor, a bare URL string: [string | ContentItem]. *)
Inductive link := LinkStr (s : string) | LinkItem (c : ContentItem).

(** [getContentUrl(item)] *)
Definition getContentUrl (item : link) : string :=
  match item with LinkStr s => s | LinkItem c => url c end.

(** [getContentTitle(item, defaultTitle)]: [item.title || defaultTitle]. *)
Definition getContentTitle (item : link) (defaultTitle : string) : string :=
  match item with
  | LinkStr _ => defaultTitle
  | LinkItem c => if String.eqb (title c) "" then defaultTitle else title c
  end.

(** [normalizeContentLinks(links)] of the admin client. *)
Definition normalizeContentLinks (links : list link) : list ContentItem :=
  map (fun item => match item with
                   | LinkStr s => mkContentItem s ""
                   | LinkItem c => c
                   end) links.

(** *** The week editor's form operations *)

Inductive link_type := VideoLinks | AudioLinks | PdfLinks.

(** [weekForm[type]] *)
Definition get_links (f : WeekForm) (t : link_type) : list ContentItem :=
  match t with
  | VideoLinks => wf_videoLinks f
  | AudioLinks => wf_audioLinks f
  | PdfLinks => wf_pdfLinks f
  end.

(** [{ ...weekForm, [type]: links }] *)
Definition set_links (f : WeekForm) (t : link_type) (links : list ContentItem) : WeekForm :=
  match t with
  | VideoLinks => mkWeekForm (wf_weekNumber f) (wf_title f) (wf_description f) (wf_published f)
                    links (wf_audioLinks f) (wf_pdfLinks f) (wf_questions f)
  | AudioLinks => mkWeekForm (wf_weekNumber f) (wf_title f) (wf_description f) (wf_published f)
                    (wf_videoLinks f) links (wf_pdfLinks f) (wf_questions f)
  | PdfLinks => mkWeekForm (wf_weekNumber f) (wf_title f) (wf_description f) (wf_published f)
                  (wf_videoLinks f) (wf_audioLinks f) links (wf_questions f)
  end.

(** [{ url: "", title: "" }] *)
Definition empty_link : ContentItem := mkContentItem "" "".

(** [list.filter((_, i) => keep(i))], indices counted from [i]. *)
Fixpoint filter_index {A} (keep : Z -> bool) (i : Z) (l : list A) : list A :=
  match l with
  | [] => []
  | x :: l' => if keep i then x :: filter_index keep (i + 1) l' else filter_index keep (i + 1) l'
  end.

(** [resetWeekForm()], [weeks.length] being [n]. *)
Definition resetWeekForm (n : nat) : WeekForm :=
  mkWeekForm (Z.of_nat n + 1) "" "" false [empty_link] [empty_link] [empty_link] [].

(** [addContentLink(type)] *)
Definition addContentLink (f : WeekForm) (t : link_type) : WeekForm :=
  set_links f t (get_links f t ++ [empty_link])%list.

(** [removeContentLink(type, index)] *)
Definition removeContentLink (f : WeekForm) (t : link_type) (index : Z) : WeekForm :=
  let links := filter_index (fun i => negb (Z.eqb i index)) 0 (get_links f t) in
  set_links f t (match links with [] => [empty_link] | _ => links end).

Inductive question_kind := Mcq | ShortAnswer.

(** [addQuestion(type)] *)
Definition addQuestion (f : WeekForm) (type : question_kind) : WeekForm :=
  let newQuestion :=
    match type with
    | Mcq => JObj [("type", JStr "mcq"); ("question", JStr "");
                   ("options", JArr [JStr ""; JStr ""; JStr ""; JStr ""]);
                   ("correctAnswer", JNum 0)]
    | ShortAnswer => JObj [("type", JStr "short_answer"); ("question", JStr "");
                           ("sampleAnswer", JStr "")]
    end in
  mkWeekForm (wf_weekNumber f) (wf_title f) (wf_description f) (wf_published f)
    (wf_videoLinks f) (wf_audioLinks f) (wf_pdfLinks f) (wf_questions f ++ [newQuestion])%list.

(** [removeQuestion(index)] *)
Definition removeQuestion (f : WeekForm) (index : Z) : WeekForm :=
  mkWeekForm (wf_weekNumber f) (wf_title f) (wf_description f) (wf_published f)
    (wf_videoLinks f) (wf_audioLinks f) (wf_pdfLinks f)
    (filter_index (fun i => negb (Z.eqb i index)) 0 (wf_questions f)).

(** A [Week] as the admin client holds it. *)
Record Week := mkWeek {
  w_weekNumber : Z;
  w_title : string;
  w_description : option string;
  w_published : bool;
  w_videoLinks : list link;
  w_audioLinks : list link;
  w_pdfLinks : list link;
  w_questions : option (list json)
}.

(** [normalizeContentLinks(l).length > 0 ? normalizeContentLinks(l) : [{ url: "", title: "" }]] *)
Definition links_or_empty (l : list link) : list ContentItem :=
  if Nat.ltb 0 (length (normalizeContentLinks l)) then normalizeContentLinks l else [empty_link].

(** The form [editWeek(week)] fills in. *)
Definition editWeek (w : Week) : WeekForm :=
  mkWeekForm (w_weekNumber w) (w_title w)
    (match w_description w with Some d => if String.eqb d "" then "" else d | None => "" end)
    (w_published w)
    (links_or_empty (w_videoLinks w)) (links_or_empty (w_audioLinks w))
    (links_or_empty (w_pdfLinks w))
    (match w_questions w with Some q => q | None => [] end).

(** The admin client's [loadWeeks(subjectId)]:
    [(data.weeks || []).sort((a, b) => a.weekNumber - b.weekNumber)]. *)
Definition admin_loadWeeks (st : store) (subjectId : string) : list json :=
  sort_by_week_number (list_weeks st subjectId).

(** The admin editor keeps a row for every link type. *)
Definition links_present (f : WeekForm) : Prop := forall t, get_links f t <> [].

(** ** A concrete session

    An admin ["u"] with token ["t"] creates week [week_1] under subject
    ["S1"], then moves it to subject ["S2"] with a [PUT], then renames it
    with a second [PUT]. *)

Definition demo_env : env :=
  mkEnv (fun tok => if String.eqb tok "t" then Some "u" else None) "T" "1".

Definition demo_auth : option string := Some "Bearer t".

Definition demo_st0 : store :=
  <["users:u" := JObj [("id", JStr "u"); ("role", JStr "admin")]]> ∅.

Definition demo_week_payload : json :=
  JObj [("subjectId", JStr "S1"); ("weekNumber", JNum 1); ("title", JStr "Week 1")].

Definition demo_st1 : store :=
  (create_week demo_env demo_st0 demo_auth (Some demo_week_payload)).2.

Definition demo_st2 : store :=
  (update_week demo_env demo_st1 demo_auth "week_1" (Some (JObj [("subjectId", JStr "S2")]))).2.

Definition demo_st3 : store :=
  (update_week demo_env demo_st2 demo_auth "week_1" (Some (JObj [("title", JStr "Week one")]))).2.

(** Deleting subject ["S2"] after the move. *)
Definition demo_st4 : store := (delete_subject demo_env demo_st2 demo_auth "S2").2.

(** A [POST /admin/weeks] body sent straight to the server, with a blank
    video link. *)
Definition demo_blank_link_payload : json :=
  JObj [("subjectId", JStr "S1"); ("weekNumber", JNum 1); ("title", JStr "Week 1");
        ("videoLinks", JArr [JObj [("url", JStr "  ")]; JObj [("url", JStr "http://x")]])].

Definition demo_st5 : store :=
  (create_week demo_env demo_st0 demo_auth (Some demo_blank_link_payload)).2.

Definition wk (i : string) (n : Z) : json :=
  JObj [("id", JStr i); ("subjectId", JStr "S"); ("weekNumber", JNum n)].

(** A store with two subjects, two weeks under ["S1"] and one under ["S2"]. *)
Definition demo_subject (i : string) : json := JObj [("id", JStr i); ("name", JStr ("Subject " ++ i))].

Definition demo_week (i s : string) (n : Z) : json :=
  JObj [("id", JStr i); ("subjectId", JStr s); ("weekNumber", JNum n)].

(** Weeks of subject ["S"], three of them published, with tied week numbers. *)
Definition demo_published_week (i : string) (n : Z) (p : bool) : json :=
  JObj [("id", JStr i); ("subjectId", JStr "S"); ("weekNumber", JNum n); ("published", JBool p)].

Definition demo_published_st : store :=
  <["weeks:S:a" := demo_published_week "a" 2 true]>
  (<["weeks:S:b" := demo_published_week "b" 1 true]>
  (<["weeks:S:c" := demo_published_week "c" 1 false]>
  (<["weeks:S:d" := demo_published_week "d" 1 true]> ∅))).

Definition demo_subjects_st : store :=
  <["weeks:S2:w3" := demo_week "w3" "S2" 1]>
  (<["weeks:S1:w2" := demo_week "w2" "S1" 2]>
  (<["weeks:S1:w1" := demo_week "w1" "S1" 1]>
  (<["subjects:S2" := demo_subject "S2"]>
  (<["subjects:S1" := demo_subject "S1"]> demo_st0)))).

(** ** Lemmas *)

Lemma find_index_nodup (qs : list nat) :
  NoDup qs -> forall i r, qs !! i = Some r -> find_index r qs = Some i.
Proof.
  induction qs as [|r0 qs IH]; intros Hnd i r Hi; [discriminate|].
  inversion Hnd as [|? ? Hnot Hnd']; subst.
  destruct i as [|i]; simpl in Hi |- *.
  - injection Hi as ->. now rewrite Nat.eqb_refl.
  - destruct (Nat.eqb_spec r r0) as [->|Hne].
    + exfalso. apply Hnot. apply list_elem_of_lookup. eauto.
    + now rewrite (IH Hnd' i r Hi).
Qed.

Lemma filter_seq_cons (f : nat -> bool) (k n : nat) :
  filter (fun i => f i = true) (seq k (S n))
  = ((if f k then [k] else []) ++ filter (fun i => f i = true) (seq (S k) n))%list.
Proof.
  simpl. rewrite filter_cons. destruct (f k); case_decide; simpl; congruence.
Qed.

Lemma score_loop (deref : nat -> Question) (qs : list nat) (answers : gmap nat answer) :
  NoDup qs ->
  (forall r, In r qs -> is_mcq (deref r) = true -> q_correctAnswer (deref r) <> None) ->
  forall l k n, (forall j, l !! j = qs !! (k + j)) ->
  fold_left (fun n r =>
      let a := match find_index r qs with
               | Some i => answers !! i
               | None => None
               end in
      if answer_eq a (q_correctAnswer (deref r)) then S n else n)
    (filter (fun r => is_mcq (deref r) = true) l) n
  = n + length (filter (fun i => spec_mcq_correct deref qs answers i = true)
                  (seq k (length l))).
Proof.
  intros Hnd Hca l. induction l as [|r l IH]; intros k n Hl.
  - simpl. lia.
  - assert (Hk : qs !! k = Some r) by (rewrite <- (Nat.add_0_r k), <- Hl; reflexivity).
    assert (Hl' : forall j, l !! j = qs !! (S k + j))
      by (intros j; replace (S k + j) with (k + S j) by lia; exact (Hl (S j))).
    assert (Hin : In r qs)
      by (apply list_elem_of_In, list_elem_of_lookup; eauto).
    change (length (r :: l)) with (S (length l)).
    rewrite filter_seq_cons, length_app.
    assert (Hsk : spec_mcq_correct deref qs answers k
                  = is_mcq (deref r) &&
                    match answers !! k, q_correctAnswer (deref r) with
                    | Some (ANum n), Some c => Z.eqb n c
                    | _, _ => false
                    end) by (unfold spec_mcq_correct; now rewrite Hk).
    rewrite Hsk. clear Hsk.
    destruct (is_mcq (deref r)) eqn:Hm.
    + rewrite filter_cons_True by exact Hm. simpl fold_left.
      rewrite (find_index_nodup qs Hnd k r Hk).
      destruct (q_correctAnswer (deref r)) as [c|] eqn:Hc;
        [|exfalso; exact (Hca r Hin Hm Hc)].
      rewrite (IH (S k)) by exact Hl'.
      destruct (answers !! k) as [[a|a]|]; simpl; [destruct (Z.eqb a c)|..]; simpl; lia.
    + rewrite filter_cons_False by (rewrite Hm; discriminate).
      simpl. now apply (IH (S k)).
Qed.

(** ** Quiz scoring *)

(** Claim C8: for questions whose references are distinct and whose MCQ
    questions carry a [correctAnswer], [calculateScore] counts the MCQ
    questions (untagged ones included, short-answer ones excluded) whose
    selected option equals [correctAnswer], out of the number of MCQ
    questions; with correct indices [0;1;2] and answers {0:0, 1:2, 2:2}
    the score is 2 out of 3, also when a short-answer question is added. *)
Theorem calculate_score_counts_mcq (deref : nat -> Question) (questions : list nat)
  (answers : gmap nat answer)
  (Hnd : NoDup questions)
  (Hca : forall r, In r questions -> is_mcq (deref r) = true ->
         q_correctAnswer (deref r) <> None) :
  calculate_score deref questions answers
  = (length (filter (fun i => spec_mcq_correct deref questions answers i = true)
                    (seq 0 (length questions))),
     length (filter (fun r => is_mcq (deref r) = true) questions))
  /\ (let q c := mkQuestion (Some "mcq") "" (Some ["a"; "b"; "c"; "d"]) (Some c) None in
      let sa := mkQuestion (Some "short_answer") "" None None (Some "x") in
      let heap r := match r with 0 => q 0%Z | 1 => q 1%Z | 2 => q 2%Z | _ => sa end in
      let ans : gmap nat answer := <[0 := ANum 0]> (<[1 := ANum 2]> (<[2 := ANum 2]> ∅)) in
      calculate_score heap [0; 1; 2] ans = (2, 3)
      /\ calculate_score heap [0; 1; 2; 3] (<[3 := AStr "text"]> ans) = (2, 3)).
Proof.
  split; [|vm_compute; split; reflexivity].
  pose proof (score_loop deref questions answers Hnd Hca questions 0 0
                (fun j => eq_refl)) as Hloop.
  unfold calculate_score. cbv zeta in Hloop |- *. now rewrite Hloop.
Qed.

Lemma calculate_score_counts_mcq_witness :
  let q c := mkQuestion None "" (Some ["a"; "b"; "c"; "d"]) (Some c) None in
  let heap r := match r with 0 => q 0%Z | 1 => q 1%Z | _ => q 2%Z end in
  calculate_score heap [0; 1; 2] (<[1 := ANum 1]> ∅)
  = (length (filter (fun i => spec_mcq_correct heap [0; 1; 2] (<[1 := ANum 1]> ∅) i = true)
                    (seq 0 3)),
     length (filter (fun r => is_mcq (heap r) = true) [0; 1; 2])).
Proof.
  intros q heap.
  refine (proj1 (calculate_score_counts_mcq heap [0; 1; 2] (<[1 := ANum 1]> ∅) _ _)).
  - apply NoDup_ListNoDup. repeat constructor; simpl; intuition discriminate.
  - intros r Hr _. destruct Hr as [<-|[<-|[<-|[]]]]; discriminate.
Defined.

(** ** YouTube id extraction *)

(** Claim C7, as stated, fails: a URL of the accepted [?v=<id>] form with an
    11-character token is not recognised. *)
Lemma extractYouTubeId_query_form_counterexample :
  String.length "dQw4w9WgXcQ" = 11
  /\ extractYouTubeId "https://www.youtube.com/?v=dQw4w9WgXcQ" = None.
Proof. split; vm_compute; reflexivity. Qed.

(** ** Admin gate *)

(** Claim C6: every admin-gated endpoint answers exactly
    [401 {error: 'Unauthorized'}] when the bearer token is missing or not
    verified, and exactly [403 {error: 'Admin access required'}] when the
    token is verified but the caller's profile is missing or not an admin;
    in both cases the store is left unchanged. *)
Theorem admin_gate (E : env) (st : store) (authorization : option string)
  (c : admin_call) :
  (token_rejected E authorization ->
     run_admin E st authorization c = (unauthorized, st) /\ status unauthorized = 401%Z)
  /\ (forall uid, authenticate E authorization = inr uid -> not_admin st uid ->
     run_admin E st authorization c = (admin_required, st) /\ status admin_required = 403%Z).
Proof.
  assert (Hgate : (token_rejected E authorization ->
                   authorize_admin E st authorization = inl unauthorized)
                  /\ (forall uid, authenticate E authorization = inr uid ->
                      not_admin st uid -> authorize_admin E st authorization = inl admin_required)).
  { unfold authorize_admin, authenticate, token_rejected, not_admin. split.
    - destruct (bearer_token authorization) as [tok|]; [|reflexivity].
      intros [->|Hu]; [reflexivity|].
      destruct (String.eqb tok ""); [reflexivity|]. now rewrite Hu.
    - intros uid Hauth Hna.
      destruct (bearer_token authorization) as [tok|]; [|discriminate].
      destruct (String.eqb tok ""); [discriminate|].
      destruct (getUser E tok) as [u|]; [|discriminate]. injection Hauth as <-.
      destruct (truthy (kv_get ("users:" ++ u) st)) eqn:Ht; [|reflexivity].
      destruct (is_str (prop_opt (kv_get ("users:" ++ u) st) "role") "admin") eqn:Hr;
        [exfalso; now apply Hna|reflexivity]. }
  destruct Hgate as [H1 H2]. split.
  - intros Hrej. specialize (H1 Hrej).
    destruct c; simpl; unfold create_subject, delete_subject, create_week, update_week,
      delete_week; rewrite H1; auto.
  - intros uid Ha Hn. specialize (H2 uid Ha Hn).
    destruct c; simpl; unfold create_subject, delete_subject, create_week, update_week,
      delete_week; rewrite H2; auto.
Qed.

Lemma admin_gate_witness :
  let E := mkEnv (fun tok => if String.eqb tok "t" then Some "u" else None) "T" "1" in
  run_admin E ∅ None (DeleteSubject "S") = (unauthorized, ∅)
  /\ run_admin E ∅ (Some "Bearer t") (CreateWeek None) = (admin_required, ∅).
Proof.
  intros E. split.
  - apply (proj1 (admin_gate E ∅ None (DeleteSubject "S"))). exact I.
  - apply (proj2 (admin_gate E ∅ (Some "Bearer t") (CreateWeek None)) "u").
    + reflexivity.
    + unfold not_admin. simpl. intros [H _]. discriminate.
Defined.

(** ** Sorting weeks *)

Lemma filter_all_false {A} (f : A -> bool) (l : list A) :
  (forall e, In e l -> f e = false) -> List.filter f l = [].
Proof.
  induction l as [|a l IH]; intros H; [reflexivity|]. simpl.
  rewrite (H a (or_introl eq_refl)). apply IH. intros e He. apply H. now right.
Qed.

Section SortWeeks.


Lemma insert_sorted_perm (x : json) (l : list json) :
  Permutation (insert_sorted x l) (x :: l).
Proof.
  induction l as [|y l IH]; simpl; [reflexivity|].
  destruct (by_week_number_lt x y); [reflexivity|].
  rewrite IH. apply perm_swap.
Qed.

Lemma sort_perm_aux (l acc : list json) :
  Permutation (fold_left (fun acc x => insert_sorted x acc) l acc) (l ++ acc).
Proof.
  revert acc. induction l as [|x l IH]; intros acc; simpl; [reflexivity|].
  rewrite IH, insert_sorted_perm. symmetry. apply Permutation_middle.
Qed.

Lemma by_week_number_lt_spec (x y : json) (zx zy : Z) :
  week_number x = Some zx -> week_number y = Some zy ->
  by_week_number_lt x y = Z.ltb zx zy.
Proof.
  intros Hx Hy. unfold by_week_number_lt. rewrite Hx, Hy.
  destruct (Z.ltb_spec (zx - zy) 0), (Z.ltb_spec zx zy); lia.
Qed.

Lemma week_le_trans : Transitive week_le.
Proof.
  intros a b c (x & y & Ha & Hb & Hxy) (y' & z & Hb' & Hc & Hyz).
  rewrite Hb in Hb'. injection Hb' as <-. exists x, z. repeat split; auto; lia.
Qed.

Lemma insert_sorted_hd (y x : json) (l : list json) :
  week_le y x -> HdRel week_le y l -> HdRel week_le y (insert_sorted x l).
Proof.
  intros Hyx Hl. destruct l as [|a l]; simpl.
  - now constructor.
  - destruct (by_week_number_lt x a); constructor; auto. now inversion Hl.
Qed.

Lemma insert_sorted_sorted (x : json) (l : list json) :
  numeric x -> Forall numeric l -> Sorted week_le l -> Sorted week_le (insert_sorted x l).
Proof.
  intros [zx Hx]. induction l as [|y l IH]; intros Hnum Hs; simpl.
  - repeat constructor.
  - inversion Hnum as [|? ? [zy Hy] Hnum']; subst.
    rewrite (by_week_number_lt_spec x y zx zy Hx Hy).
    destruct (Z.ltb_spec zx zy) as [Hlt|Hge].
    + constructor; [exact Hs|]. constructor. exists zx, zy. repeat split; auto; lia.
    + apply Sorted_inv in Hs as [Hs Hhd]. constructor; [now apply IH|].
      apply insert_sorted_hd; [|exact Hhd]. exists zy, zx. repeat split; auto; lia.
Qed.

Lemma insert_sorted_filter (z : Z) (x : json) (l : list json) :
  numeric x -> Forall numeric l -> Sorted week_le l ->
  List.filter (has_week_number z) (insert_sorted x l)
  = (List.filter (has_week_number z) l ++ List.filter (has_week_number z) [x])%list.
Proof.
  intros [zx Hx]. induction l as [|y l IH]; intros Hnum Hs; [reflexivity|].
  inversion Hnum as [|? ? [zy Hy] Hnum']; subst. simpl insert_sorted.
  rewrite (by_week_number_lt_spec x y zx zy Hx Hy).
  destruct (Z.ltb_spec zx zy) as [Hlt|Hge].
  - (* every element from [y] on has a week number above [zx] *)
    assert (Hall : forall e, In e (y :: l) -> exists ze, week_number e = Some ze /\ (zx < ze)%Z).
    { apply Sorted_StronglySorted in Hs; [|exact week_le_trans].
      intros e [<-|He]; [eauto|].
      apply StronglySorted_inv in Hs as [_ Hfa].
      rewrite Forall_forall in Hfa. apply list_elem_of_In in He.
      destruct (Hfa e He) as (a & b & Ha & Hb & Hab).
      rewrite Hy in Ha. injection Ha as <-. exists b. split; [exact Hb|lia]. }
    destruct (has_week_number z x) eqn:Hzx.
    + assert (Hz : zx = z)
        by (unfold has_week_number in Hzx; rewrite Hx in Hzx; now apply Z.eqb_eq).
      subst z.
      assert (Hnil : List.filter (has_week_number zx) (y :: l) = []).
      { apply filter_all_false. intros e He. destruct (Hall e He) as (ze & He1 & He2).
        unfold has_week_number. rewrite He1. apply Z.eqb_neq. lia. }
      change (List.filter (has_week_number zx) (x :: y :: l))
        with (if has_week_number zx x then x :: List.filter (has_week_number zx) (y :: l)
              else List.filter (has_week_number zx) (y :: l)).
      rewrite Hzx, Hnil. simpl. now rewrite Hzx.
    + change (List.filter (has_week_number z) (x :: y :: l))
        with (if has_week_number z x then x :: List.filter (has_week_number z) (y :: l)
              else List.filter (has_week_number z) (y :: l)).
      rewrite Hzx. simpl (List.filter (has_week_number z) [x]). rewrite Hzx.
      now rewrite app_nil_r.
  - cbn [List.filter]. rewrite IH; [|exact Hnum'|now apply Sorted_inv in Hs as []].
    cbn [List.filter]. destruct (has_week_number z y); reflexivity.
Qed.

Lemma sort_filter_aux (z : Z) (l acc : list json) :
  Forall numeric l -> Forall numeric acc -> Sorted week_le acc ->
  Sorted week_le (fold_left (fun acc x => insert_sorted x acc) l acc)
  /\ List.filter (has_week_number z) (fold_left (fun acc x => insert_sorted x acc) l acc)
     = (List.filter (has_week_number z) acc ++ List.filter (has_week_number z) l)%list.
Proof.
  revert acc. induction l as [|x l IH]; intros acc Hl Hacc Hs.
  - simpl. now rewrite app_nil_r.
  - inversion Hl as [|? ? Hx Hl']; subst. simpl fold_left.
    assert (Hacc' : Forall numeric (insert_sorted x acc)).
    { apply (Permutation_Forall (Permutation_sym (insert_sorted_perm x acc))).
      now constructor. }
    destruct (IH (insert_sorted x acc) Hl' Hacc' (insert_sorted_sorted x acc Hx Hacc Hs))
      as [Hs' Hf]. split; [exact Hs'|].
    rewrite Hf, (insert_sorted_filter z x acc Hx Hacc Hs), <- app_assoc. f_equal.
    simpl. now destruct (has_week_number z x).
Qed.

Lemma sort_by_week_number_spec (l : list json) :
  Forall numeric l ->
  Sorted week_le (sort_by_week_number l)
  /\ Permutation (sort_by_week_number l) l
  /\ forall z, List.filter (has_week_number z) (sort_by_week_number l)
              = List.filter (has_week_number z) l.
Proof.
  intros Hl. unfold sort_by_week_number.
  split; [|split].
  - apply (sort_filter_aux 0 l []); auto.
  - rewrite sort_perm_aux. now rewrite app_nil_r.
  - intros z. apply (sort_filter_aux z l []); auto.
Qed.

End SortWeeks.

(** ** Store scans *)

Lemma getByPrefix_In (p : string) (st : store) (v : json) :
  In v (getByPrefix p st) <-> exists k, st !! k = Some v /\ String.prefix p k = true.
Proof.
  unfold getByPrefix. rewrite in_map_iff. split.
  - intros [[k v'] [Heq Hin]]. simpl in Heq. subst v'.
    apply list_elem_of_In, list_elem_of_filter in Hin as [Hp Hin].
    apply elem_of_map_to_list in Hin. eauto.
  - intros (k & Hk & Hp). exists (k, v). split; [reflexivity|].
    apply list_elem_of_In, list_elem_of_filter. split; [exact Hp|].
    now apply elem_of_map_to_list.
Qed.

Lemma getByPrefix_nil (p : string) (st : store) :
  (forall k v, st !! k = Some v -> String.prefix p k = false) -> getByPrefix p st = [].
Proof.
  intros H. destruct (getByPrefix p st) as [|v l] eqn:Hg; [reflexivity|].
  exfalso. assert (Hin : In v (getByPrefix p st)) by (rewrite Hg; now left).
  apply getByPrefix_In in Hin as (k & Hk & Hp). rewrite (H k v Hk) in Hp. discriminate.
Qed.

(** ** Week listing *)

(** Claim C3: when every week stored under the subject's prefix has a
    numeric [weekNumber], [GET /weeks/:subjectId] returns the prefix scan
    sorted so that adjacent weeks have non-decreasing week numbers, as a
    permutation of the scan, and weeks sharing a week number keep their
    scan order. *)
Theorem list_weeks_sorted_stable (st : store) (subjectId : string)
  (Hnum : forall w, In w (getByPrefix ("weeks:" ++ subjectId ++ ":") st) ->
          exists z, week_number w = Some z) :
  Sorted week_le (list_weeks st subjectId)
  /\ Permutation (list_weeks st subjectId) (getByPrefix ("weeks:" ++ subjectId ++ ":") st)
  /\ forall z, List.filter (has_week_number z) (list_weeks st subjectId)
             = List.filter (has_week_number z) (getByPrefix ("weeks:" ++ subjectId ++ ":") st).
Proof.
  unfold list_weeks. apply sort_by_week_number_spec.
  apply Forall_forall. intros w Hw. apply Hnum. now apply list_elem_of_In.
Qed.

Lemma list_weeks_sorted_stable_witness :
  let st : store := <["weeks:S:a" := wk "a" 2]> (<["weeks:S:b" := wk "b" 1]>
                    (<["weeks:S:c" := wk "c" 2]> ∅)) in
  Sorted week_le (list_weeks st "S")
  /\ List.filter (has_week_number 2) (list_weeks st "S")
     = List.filter (has_week_number 2) (getByPrefix "weeks:S:" st).
Proof.
  intros st.
  destruct (list_weeks_sorted_stable st "S") as [Hs [_ Hf]].
  - intros w Hw.
    assert (Hscan : getByPrefix ("weeks:" ++ "S" ++ ":") st = [wk "c" 2; wk "a" 2; wk "b" 1])
      by (vm_compute; reflexivity).
    rewrite Hscan in Hw.
    destruct Hw as [<-|[<-|[<-|[]]]]; eexists; reflexivity.
  - split; [exact Hs|exact (Hf 2%Z)].
Defined.

(** ** Object spread *)

Lemma assoc_obj_set (k k' : string) (v : json) (o : list (string * json)) :
  assoc k' (obj_set k v o) = if String.eqb k' k then Some v else assoc k' o.
Proof.
  induction o as [|[k0 v0] o IH]; simpl.
  - destruct (String.eqb k' k); reflexivity.
  - destruct (String.eqb_spec k k0) as [<-|Hne]; simpl.
    + destruct (String.eqb k' k); reflexivity.
    + rewrite IH. destruct (String.eqb_spec k' k0) as [E1|E1];
        destruct (String.eqb_spec k' k) as [E2|E2]; congruence.
Qed.

Lemma assoc_not_in (k : string) (u : list (string * json)) :
  ~ In k (map fst u) -> assoc k u = None.
Proof.
  induction u as [|[k0 v0] u IH]; intros H; simpl; [reflexivity|].
  destruct (String.eqb_spec k k0) as [->|Hne].
  - exfalso. apply H. now left.
  - apply IH. intros Hin. apply H. now right.
Qed.

Lemma assoc_spread_into (u o : list (string * json)) :
  NoDup (map fst u) -> forall k,
  assoc k (fold_left (fun acc kv => obj_set kv.1 kv.2 acc) u o)
  = match assoc k u with Some v => Some v | None => assoc k o end.
Proof.
  revert o. induction u as [|[k1 v1] u IH]; intros o Hnd k; [reflexivity|].
  simpl in Hnd |- *. apply NoDup_cons in Hnd as [Hk1 Hnd].
  assert (Hk1' : ~ In k1 (map fst u)) by (intros Hin; apply Hk1, list_elem_of_In, Hin).
  rewrite (IH (obj_set k1 v1 o) Hnd k), assoc_obj_set.
  destruct (String.eqb_spec k k1) as [->|Hne].
  - now rewrite (assoc_not_in k1 u Hk1').
  - destruct (assoc k u); reflexivity.
Qed.

(** [{ ...week, ...updates }] on objects: a property of [updates] wins, any
    other property is the week's. *)
Lemma prop_spread2 (wl u : list (string * json)) (k : string) :
  NoDup (map fst u) ->
  prop (spread2 (JObj wl) (JObj u)) k
  = match assoc k u with Some v => Some v | None => prop (JObj wl) k end.
Proof. intros Hnd. unfold spread2, spread_into. simpl. now apply assoc_spread_into. Qed.

Lemma find_week_obj (weekId : string) (scan : list json) (week : json) :
  find_week weekId scan = Some week -> exists wl, week = JObj wl.
Proof.
  unfold find_week. intros Hf. apply find_some in Hf as [_ Hp].
  destruct week; try discriminate. eauto.
Qed.

(** ** Updating a week *)

(** Claim C9: [PUT /admin/weeks/:id] with an object payload writes the
    shallow merge of the payload over the found week: every property the
    payload has takes the payload's value whole, every other property keeps
    the stored week's value. *)
Theorem update_week_shallow_merge (E : env) (st : store) (authorization : option string)
  (weekId : string) (u : list (string * json)) (week : json) (uid : string)
  (Hauth : authorize_admin E st authorization = inr uid)
  (Hfind : find_week weekId (getByPrefix "weeks:" st) = Some week)
  (Hnd : NoDup (map fst u)) :
  exists merged,
    (update_week E st authorization weekId (Some (JObj u))).2
      !! ("weeks:" ++ tmpl (prop week "subjectId") ++ ":" ++ weekId) = Some merged
    /\ forall k, prop merged k = match assoc k u with Some v => Some v | None => prop week k end.
Proof.
  destruct (find_week_obj _ _ _ Hfind) as [wl ->].
  exists (spread2 (JObj wl) (JObj u)). split.
  - unfold update_week. rewrite Hauth, Hfind. apply lookup_insert_eq.
  - intros k. now apply prop_spread2.
Qed.

Lemma update_week_shallow_merge_witness :
  let E := mkEnv (fun _ => Some "u") "T" "1" in
  let week := JObj [("id", JStr "w"); ("subjectId", JStr "S"); ("title", JStr "old");
                    ("questions", JArr [JStr "q1"; JStr "q2"])] in
  let st : store := <["weeks:S:w" := week]> (<["users:u" := JObj [("role", JStr "admin")]]> ∅) in
  exists merged,
    (update_week E st (Some "Bearer t") "w" (Some (JObj [("questions", JArr [])])) ).2
      !! ("weeks:" ++ tmpl (prop week "subjectId") ++ ":" ++ "w") = Some merged
    /\ forall k, prop merged k
       = match assoc k [("questions", JArr [])] with Some v => Some v | None => prop week k end.
Proof.
  intros E week st.
  apply (update_week_shallow_merge E st (Some "Bearer t") "w" [("questions", JArr [])] week "u").
  - vm_compute. reflexivity.
  - vm_compute. reflexivity.
  - apply NoDup_ListNoDup. repeat constructor. intros [].
Defined.

Lemma str_app_assoc (a b c : string) : a ++ (b ++ c) = (a ++ b) ++ c.
Proof.
  induction a as [|x a IH]; [reflexivity|].
  change (String x (a ++ (b ++ c)) = String x ((a ++ b) ++ c)). congruence.
Qed.

Lemma prefix_app (p x : string) : String.prefix p (p ++ x) = true.
Proof.
  induction p as [|a p IH]; simpl; [destruct x; reflexivity|].
  destruct (ascii_dec a a); congruence.
Qed.

Lemma sort_by_week_number_perm (l : list json) : Permutation (sort_by_week_number l) l.
Proof. unfold sort_by_week_number. rewrite sort_perm_aux. now rewrite app_nil_r. Qed.

(** Claim C10, as stated, fails: after the week has been moved to ["S2"]
    (still stored under ["weeks:S1:week_1"]), the next update writes a new
    key ["weeks:S2:week_1"] and leaves the old record in place. *)
Lemma update_week_key_changes_counterexample :
  demo_st2 !! "weeks:S2:week_1" = None
  /\ option_map (fun v => prop v "id") (demo_st2 !! "weeks:S1:week_1") = Some (Some (JStr "week_1"))
  /\ option_map (fun v => prop v "title") (demo_st3 !! "weeks:S2:week_1")
     = Some (Some (JStr "Week one"))
  /\ option_map (fun v => prop v "title") (demo_st3 !! "weeks:S1:week_1")
     = Some (Some (JStr "Week 1")).
Proof. vm_compute. repeat split. Qed.

Lemma fold_del_lookup (f : json -> string) (l : list json) (s : store) (k : string) :
  fold_left (fun s w => kv_del (f w) s) l s !! k
  = if existsb (fun w => String.eqb (f w) k) l then None else s !! k.
Proof.
  revert s. induction l as [|a l IH]; intros s; simpl; [reflexivity|].
  rewrite IH. unfold kv_del.
  destruct (existsb _ l); [now rewrite orb_true_r|rewrite orb_false_r].
  destruct (String.eqb (f a) k) eqn:E.
  - apply String.eqb_eq in E. subst. apply lookup_delete_eq.
  - apply String.eqb_neq in E. now apply lookup_delete_ne.
Qed.

(** A statement about every entry of a concrete store, checked entry by
    entry from an equation [Hm] giving its [map_to_list]. *)
Ltac store_cases Hm :=
  let k := fresh "k" in let v := fresh "v" in let Hk := fresh "Hk" in
  intros k v Hk; apply elem_of_map_to_list in Hk; rewrite Hm in Hk;
  repeat (apply elem_of_cons in Hk as [Hk|Hk];
          [injection Hk as -> ->; vm_compute; intros; first [reflexivity | discriminate] |]);
  apply elem_of_nil in Hk; contradiction.

(** Claim C2, as stated, fails: a week whose [subjectId] was changed to
    ["S2"] by an update still sits under the ["S1"] namespace, so deleting
    subject ["S2"] leaves a stored week whose [subjectId] is ["S2"]. *)
Lemma delete_subject_leaves_moved_week_counterexample :
  existsb (fun v => is_str (prop v "subjectId") "S2") (getByPrefix "weeks:" demo_st4) = true.
Proof. vm_compute. reflexivity. Qed.

(** Claim C1 (amended): the week editor's [createOrUpdateWeek] drops every
    video, audio and PDF link whose [url] trims to the empty string before
    it sends [POST /admin/weeks], and the server stores the links it
    receives; so a week created from the editor (subject chosen, week
    number non-zero, title non-empty) is stored under
    [weeks:<subject>:week_<fresh>] with exactly the non-blank links, in
    their order. *)
Theorem submit_new_week_drops_blank_links (E : env) (st : store)
  (authorization : option string) (uid : string) (f : WeekForm) (sid : string)
  (Hauth : authorize_admin E st authorization = inr uid)
  (Hsid : sid <> "") (Hnum : wf_weekNumber f <> 0%Z) (Htitle : wf_title f <> "") :
  exists week,
    (submit_new_week E st authorization f sid).2
      = <["weeks:" ++ sid ++ ":" ++ "week_" ++ fresh E := week]> st
    /\ prop week "videoLinks" = Some (JArr (map content_json (filter url_not_blank (wf_videoLinks f))))
    /\ prop week "audioLinks" = Some (JArr (map content_json (filter url_not_blank (wf_audioLinks f))))
    /\ prop week "pdfLinks" = Some (JArr (map content_json (filter url_not_blank (wf_pdfLinks f)))).
Proof.
  apply String.eqb_neq in Hsid, Htitle. apply Z.eqb_neq in Hnum.
  unfold submit_new_week, create_week. rewrite Hauth. simpl.
  rewrite Hsid, Hnum, Htitle. simpl.
  eexists. split; [reflexivity|]. repeat split.
Qed.

Lemma submit_new_week_drops_blank_links_witness :
  exists week,
    (submit_new_week demo_env demo_st0 demo_auth
       (mkWeekForm 1 "Week 1" "" false
          [mkContentItem "  " "blank"; mkContentItem "http://x" "x"] [] [] []) "S1").2
      = <["weeks:S1:week_1" := week]> demo_st0
    /\ prop week "videoLinks" = Some (JArr [content_json (mkContentItem "http://x" "x")]).
Proof.
  destruct (submit_new_week_drops_blank_links demo_env demo_st0 demo_auth "u"
              (mkWeekForm 1 "Week 1" "" false
                 [mkContentItem "  " "blank"; mkContentItem "http://x" "x"] [] [] []) "S1")
    as (week & Hst & Hv & _).
  - vm_compute. reflexivity.
  - discriminate.
  - discriminate.
  - discriminate.
  - exists week. split; [exact Hst|]. rewrite Hv. reflexivity.
Defined.

(** Claim C1, as stated, fails for a create-week request that does not come
    from the editor: the server stores a blank video link it receives. *)
Lemma create_week_keeps_blank_link_counterexample :
  option_map (fun v => prop v "videoLinks") (demo_st5 !! "weeks:S1:week_1")
  = Some (Some (JArr [JObj [("url", JStr "  ")]; JObj [("url", JStr "http://x")]])).
Proof. vm_compute. reflexivity. Qed.

Lemma or_else_falsy (v : jsval) (d : json) : truthy v = false -> or_else v d = d.
Proof. destruct v as [x|]; simpl; [intros H; now rewrite H|reflexivity]. Qed.

Lemma weeks_not_users (x uid : string) : "weeks:" ++ x <> "users:" ++ uid.
Proof. discriminate. Qed.

Lemma auth_insert_other (E : env) (st : store) (authorization : option string)
  (k : string) (v : json) :
  (forall uid, k <> "users:" ++ uid) ->
  authorize_admin E (<[k := v]> st) authorization = authorize_admin E st authorization.
Proof.
  intros H. unfold authorize_admin.
  destruct (authenticate E authorization) as [r|uid]; [reflexivity|].
  unfold kv_get. rewrite lookup_insert_ne by apply H. reflexivity.
Qed.

Lemma prefix_app_l (p q k : string) :
  String.prefix (p ++ q) k = true -> String.prefix p k = true.
Proof.
  revert k. induction p as [|a p IH]; intros k H; [destruct k; reflexivity|].
  destruct k as [|b k]; [discriminate H|].
  change (String.prefix (String a (p ++ q)) (String b k) = true) in H.
  simpl in H |- *. destruct (ascii_dec a b); [now apply (IH k)|discriminate].
Qed.

Lemma find_unique {A} (f : A -> bool) (l : list A) (w : A) :
  In w l -> f w = true -> (forall x, In x l -> f x = true -> x = w) ->
  List.find f l = Some w.
Proof.
  induction l as [|a l IH]; intros Hin Hf Hu; [destruct Hin|]. simpl.
  destruct (f a) eqn:Ha.
  - f_equal. apply Hu; [now left|exact Ha].
  - destruct Hin as [->|Hin]; [congruence|].
    apply IH; [exact Hin|exact Hf|]. intros x Hx. apply Hu. now right.
Qed.

(** A week stored under a ["weeks:"] key with an id no other week has is
    the one [find_week] returns. *)
Lemma find_week_fresh_insert (W K : string) (w : json) (st : store) :
  find_week W (getByPrefix "weeks:" st) = None ->
  String.prefix "weeks:" K = true -> is_str (prop w "id") W = true ->
  find_week W (getByPrefix "weeks:" (<[K := w]> st)) = Some w.
Proof.
  intros Hnone HK Hw. unfold find_week in *. apply find_unique; [|exact Hw|].
  - apply getByPrefix_In. exists K. split; [apply lookup_insert_eq|exact HK].
  - intros x Hx Hfx. apply getByPrefix_In in Hx as (k & Hk & Hp).
    destruct (String.eq_dec K k) as [<-|Hne].
    + rewrite lookup_insert_eq in Hk. congruence.
    + rewrite lookup_insert_ne in Hk by exact Hne.
      assert (Hin : In x (getByPrefix "weeks:" st)) by (apply getByPrefix_In; eauto).
      rewrite (find_none _ _ Hnone x Hin) in Hfx. discriminate.
Qed.

Lemma in_student_weeks (w : json) (l : list json) :
  In w (student_weeks l) <-> truthy (prop w "published") = true /\ In w l.
Proof.
  unfold student_weeks. split.
  - intros Hin. apply (Permutation_in _ (sort_by_week_number_perm _)) in Hin.
    apply list_elem_of_In, list_elem_of_filter in Hin as [Hp Hin].
    split; [exact Hp|]. now apply list_elem_of_In.
  - intros [Hp Hin]. apply (Permutation_in _ (Permutation_sym (sort_by_week_number_perm _))).
    apply list_elem_of_In, list_elem_of_filter. split; [exact Hp|]. now apply list_elem_of_In.
Qed.

Lemma in_list_weeks (w : json) (st : store) (S : string) :
  In w (list_weeks st S)
  <-> exists k, st !! k = Some w /\ String.prefix ("weeks:" ++ S ++ ":") k = true.
Proof.
  unfold list_weeks. rewrite <- getByPrefix_In. split; intros Hin.
  - exact (Permutation_in _ (sort_by_week_number_perm _) Hin).
  - exact (Permutation_in _ (Permutation_sym (sort_by_week_number_perm _)) Hin).
Qed.

(** Claim C4: a week created by [POST /admin/weeks] with a falsy
    [published] is stored with [published: false] and is not in the
    student listing of its subject ([loadWeeks] keeps published weeks of
    [GET /weeks/:subjectId]); after [togglePublish] of that week it is
    stored with [published: true] and is in the student listing; a second
    [togglePublish] of the week as now stored gives back exactly the store
    after creation. The week's id is assumed fresh among stored weeks. *)
Theorem toggle_publish_visibility (E : env) (st : store) (authorization : option string)
  (uid S : string) (b : json)
  (Hauth : authorize_admin E st authorization = inr uid)
  (Hsubj : field b "subjectId" = Some (JStr S)) (HS : S <> "")
  (Hnum : truthy (field b "weekNumber") = true)
  (Htitle : truthy (field b "title") = true)
  (Hpub : truthy (field b "published") = false)
  (Hfresh : find_week ("week_" ++ fresh E) (getByPrefix "weeks:" st) = None) :
  let W := "week_" ++ fresh E in
  let st1 := (create_week E st authorization (Some b)).2 in
  exists week,
    st1 !! ("weeks:" ++ S ++ ":" ++ W) = Some week
    /\ prop week "id" = Some (JStr W)
    /\ prop week "published" = Some (JBool false)
    /\ (forall w, In w (student_weeks (list_weeks st1 S)) -> prop w "id" <> Some (JStr W))
    /\ let st2 := (toggle_publish E st1 authorization week).2 in
       exists week',
         st2 !! ("weeks:" ++ S ++ ":" ++ W) = Some week'
         /\ prop week' "id" = Some (JStr W)
         /\ prop week' "published" = Some (JBool true)
         /\ In week' (student_weeks (list_weeks st2 S))
         /\ (toggle_publish E st2 authorization week').2 = st1.
Proof.
  intros W st1.
  assert (Htr : truthy (Some (JStr S)) = true)
    by (simpl; apply String.eqb_neq in HS; now rewrite HS).
  destruct b as [| | | | |l]; try discriminate Hsubj.
  set (K := "weeks:" ++ S ++ ":" ++ W).
  assert (HK : String.prefix "weeks:" K = true) by apply prefix_app.
  assert (HKS : String.prefix ("weeks:" ++ S ++ ":") K = true)
    by (unfold K; rewrite !str_app_assoc; apply prefix_app).
  assert (Hnu : forall u, K <> "users:" ++ u) by apply weeks_not_users.
  set (week0 := JObj [("id", JStr W); ("subjectId", JStr S);
      ("weekNumber", present (field (JObj l) "weekNumber"));
      ("title", present (field (JObj l) "title"));
      ("videoLinks", or_else (field (JObj l) "videoLinks") (JArr []));
      ("audioLinks", or_else (field (JObj l) "audioLinks") (JArr []));
      ("pdfLinks", or_else (field (JObj l) "pdfLinks") (JArr []));
      ("questions", or_else (field (JObj l) "questions") (JArr []));
      ("published", JBool false); ("createdAt", JStr (now E))]).
  set (week1 := JObj [("id", JStr W); ("subjectId", JStr S);
      ("weekNumber", present (field (JObj l) "weekNumber"));
      ("title", present (field (JObj l) "title"));
      ("videoLinks", or_else (field (JObj l) "videoLinks") (JArr []));
      ("audioLinks", or_else (field (JObj l) "audioLinks") (JArr []));
      ("pdfLinks", or_else (field (JObj l) "pdfLinks") (JArr []));
      ("questions", or_else (field (JObj l) "questions") (JArr []));
      ("published", JBool true); ("createdAt", JStr (now E))]).
  assert (HidW : forall w, prop w "id" = Some (JStr W) -> is_str (prop w "id") W = true)
    by (intros w ->; apply String.eqb_refl).
  assert (Hst1 : st1 = <[K := week0]> st).
  { unfold st1, create_week. rewrite Hauth. cbv beta iota zeta.
    rewrite Hsubj, Hnum, Htitle, Htr, (or_else_falsy _ _ Hpub). reflexivity. }
  assert (Hfind1 : find_week W (getByPrefix "weeks:" st1) = Some week0)
    by (rewrite Hst1; apply find_week_fresh_insert; [exact Hfresh|exact HK|now apply HidW]).
  assert (Hauth1 : authorize_admin E st1 authorization = inr uid)
    by (rewrite Hst1, auth_insert_other by exact Hnu; exact Hauth).
  exists week0. split; [rewrite Hst1; apply lookup_insert_eq|].
  split; [reflexivity|]. split; [reflexivity|]. split.
  - intros w Hin Hid. apply in_student_weeks in Hin as [Hp Hin].
    apply in_list_weeks in Hin as (k & Hk & Hpre). rewrite Hst1 in Hk.
    destruct (String.eq_dec K k) as [<-|Hne].
    + rewrite lookup_insert_eq in Hk. injection Hk as <-. discriminate Hp.
    + rewrite lookup_insert_ne in Hk by exact Hne.
      apply (prefix_app_l "weeks:") in Hpre.
      assert (Hin : In w (getByPrefix "weeks:" st)) by (apply getByPrefix_In; eauto).
      assert (Hf : is_str (prop w "id") W = false) by exact (find_none _ _ Hfresh w Hin).
      rewrite (HidW w Hid) in Hf. discriminate.
  - intros st2.
    assert (Hst2 : st2 = <[K := week1]> st1).
    { unfold st2, toggle_publish. change (tmpl (prop week0 "id")) with W.
      unfold update_week. rewrite Hauth1, Hfind1. reflexivity. }
    assert (Hfind2 : find_week W (getByPrefix "weeks:" st2) = Some week1)
      by (rewrite Hst2, Hst1, insert_insert_eq; apply find_week_fresh_insert;
          [exact Hfresh|exact HK|now apply HidW]).
    assert (Hauth2 : authorize_admin E st2 authorization = inr uid)
      by (rewrite Hst2, auth_insert_other by exact Hnu; exact Hauth1).
    exists week1. split; [rewrite Hst2; apply lookup_insert_eq|].
    split; [reflexivity|]. split; [reflexivity|]. split.
    + apply in_student_weeks. split; [reflexivity|].
      apply in_list_weeks. exists K. split; [rewrite Hst2; apply lookup_insert_eq|exact HKS].
    + unfold toggle_publish. change (tmpl (prop week1 "id")) with W.
      unfold update_week. rewrite Hauth2, Hfind2.
      transitivity (<[K := week0]> st2); [reflexivity|].
      rewrite Hst2, Hst1, !insert_insert_eq. reflexivity.
Qed.

Lemma toggle_publish_visibility_witness :
  exists week, demo_st1 !! "weeks:S1:week_1" = Some week
    /\ forall w, In w (student_weeks (list_weeks demo_st1 "S1")) ->
       prop w "id" <> Some (JStr "week_1").
Proof.
  pose proof (toggle_publish_visibility demo_env demo_st0 demo_auth "u" "S1"
                demo_week_payload) as H.
  cbv zeta in H.
  destruct H as (week & Hk & _ & _ & Hhid & _).
  - vm_compute. reflexivity.
  - reflexivity.
  - discriminate.
  - reflexivity.
  - reflexivity.
  - reflexivity.
  - vm_compute. reflexivity.
  - exists week. split; [exact Hk|exact Hhid].
Defined.

Lemma nodup_all_eq {A} (l : list A) (a : A) :
  NoDup l -> a ∈ l -> (forall x, x ∈ l -> x = a) -> l = [a].
Proof.
  intros Hnd Hin Hall. destruct l as [|b l]; [apply elem_of_nil in Hin; contradiction|].
  assert (b = a) as -> by (apply Hall; left).
  apply NoDup_cons in Hnd as [Hnot _].
  destruct l as [|c l]; [reflexivity|].
  exfalso. apply Hnot. rewrite (Hall c) by (right; left). left.
Qed.

(** Claim C5: [POST /progress] overwrites the record under
    [progress:<user>:<weekId>] with a new one whose [lastAccessed] is the
    current time. Saving [(w, false)] and then [(w, true)] for student [s]
    leaves one record for [(s, w)], the second one, with [completed: true]
    and the second call's time; and any save for [w] sets [lastAccessed]
    to its own current time, whatever [completed] was before. Stored
    progress records are assumed to sit under the key built from their
    user and [weekId], as [POST /progress] stores them. *)
Theorem saveProgress_last_write_wins (E1 E2 : env) (st : store)
  (authorization : option string) (s w : string)
  (H1 : authenticate E1 authorization = inr s)
  (H2 : authenticate E2 authorization = inr s)
  (Hinv : forall k v, st !! k = Some v ->
          String.prefix ("progress:" ++ s ++ ":") k = true ->
          is_str (prop v "weekId") w = true -> k = "progress:" ++ s ++ ":" ++ w) :
  let st1 := (saveProgress E1 st authorization w false).2 in
  let st2 := (saveProgress E2 st1 authorization w true).2 in
  let r2 := JObj [("userId", JStr s); ("weekId", JStr w);
                  ("completed", JBool true); ("lastAccessed", JStr (now E2))] in
  st1 !! ("progress:" ++ s ++ ":" ++ w)
    = Some (JObj [("userId", JStr s); ("weekId", JStr w);
                  ("completed", JBool false); ("lastAccessed", JStr (now E1))])
  /\ st2 !! ("progress:" ++ s ++ ":" ++ w) = Some r2
  /\ progress_records s w st2 = [r2]
  /\ (forall E c st0, authenticate E authorization = inr s ->
      option_map (fun v => prop v "lastAccessed")
        ((saveProgress E st0 authorization w c).2 !! ("progress:" ++ s ++ ":" ++ w))
      = Some (Some (JStr (now E)))).
Proof.
  intros st1 st2 r2.
  set (K := "progress:" ++ s ++ ":" ++ w).
  set (r1 := JObj [("userId", JStr s); ("weekId", JStr w);
                   ("completed", JBool false); ("lastAccessed", JStr (now E1))]).
  assert (Hst1 : st1 = <[K := r1]> st)
    by (unfold st1, saveProgress, save_progress; rewrite H1; reflexivity).
  assert (Hst2 : st2 = <[K := r2]> st)
    by (unfold st2, saveProgress, save_progress; rewrite H2, Hst1;
        apply insert_insert_eq).
  split; [rewrite Hst1; apply lookup_insert_eq|].
  split; [rewrite Hst2; apply lookup_insert_eq|].
  split.
  - unfold progress_records.
    set (L := filter _ (map_to_list st2)).
    assert (HL : L = [(K, r2)]).
    { apply nodup_all_eq.
      - apply NoDup_filter, NoDup_map_to_list.
      - apply list_elem_of_filter. split.
        + apply andb_true_iff. split.
          * unfold K. simpl. rewrite !str_app_assoc. apply prefix_app.
          * apply String.eqb_refl.
        + apply elem_of_map_to_list. rewrite Hst2. apply lookup_insert_eq.
      - intros [k v] Hx. apply list_elem_of_filter in Hx as [Hp Hx].
        apply elem_of_map_to_list in Hx. apply andb_true_iff in Hp as [Hp Hw].
        simpl in Hp, Hw. rewrite Hst2 in Hx.
        destruct (String.eq_dec K k) as [<-|Hne].
        + rewrite lookup_insert_eq in Hx. congruence.
        + rewrite lookup_insert_ne in Hx by exact Hne.
          exfalso. exact (Hne (eq_sym (Hinv k v Hx Hp Hw))). }
    rewrite HL. reflexivity.
  - intros E c st0 HE.
    assert (Hs : (saveProgress E st0 authorization w c).2
                 = <[K := JObj [("userId", JStr s); ("weekId", JStr w);
                                ("completed", or_else (Some (JBool c)) (JBool false));
                                ("lastAccessed", JStr (now E))]]> st0)
      by (unfold saveProgress, save_progress; rewrite HE; reflexivity).
    rewrite Hs, lookup_insert_eq. reflexivity.
Qed.

Lemma saveProgress_last_write_wins_witness :
  progress_records "u" "week_1"
    (saveProgress (mkEnv (fun tok => if String.eqb tok "t" then Some "u" else None) "T2" "2")
       (saveProgress demo_env ∅ demo_auth "week_1" false).2 demo_auth "week_1" true).2
  = [JObj [("userId", JStr "u"); ("weekId", JStr "week_1");
           ("completed", JBool true); ("lastAccessed", JStr "T2")]].
Proof.
  pose proof (saveProgress_last_write_wins demo_env
                (mkEnv (fun tok => if String.eqb tok "t" then Some "u" else None) "T2" "2")
                ∅ demo_auth "u" "week_1") as H.
  cbv zeta in H. destruct H as (_ & _ & Hr & _).
  - vm_compute. reflexivity.
  - vm_compute. reflexivity.
  - intros k v Hk. rewrite lookup_empty in Hk. discriminate.
  - exact Hr.
Defined.

(** ** Further properties of the server *)

Lemma find_week_none (W : string) (l : list json) :
  (forall x, In x l -> is_str (prop x "id") W = false) -> find_week W l = None.
Proof.
  intros H. unfold find_week. destruct (List.find _ l) as [x|] eqn:Hf; [|reflexivity].
  apply find_some in Hf as [Hin Hx]. rewrite (H x Hin) in Hx. discriminate.
Qed.

(** [DELETE /admin/weeks/:id] answers 404 without touching the store when no
    stored week has the id. Otherwise it deletes the one key
    [weeks:<found week's subjectId>:<id>] and answers success, even when
    that key holds nothing (the week was moved to another subject by an
    update); if every stored week with that id sits under that key, no
    week with the id is left. *)
Theorem delete_week_effect (E : env) (st : store) (authorization : option string)
  (uid W : string) (Hauth : authorize_admin E st authorization = inr uid) :
  (find_week W (getByPrefix "weeks:" st) = None ->
   delete_week E st authorization W = (err 404 "Week not found", st))
  /\ forall week, find_week W (getByPrefix "weeks:" st) = Some week ->
     let K := "weeks:" ++ tmpl (prop week "subjectId") ++ ":" ++ W in
     (delete_week E st authorization W).1 = ok [("success", JBool true)]
     /\ (forall k, (delete_week E st authorization W).2 !! k
                   = if String.eqb k K then None else st !! k)
     /\ (st !! K = None -> (delete_week E st authorization W).2 = st)
     /\ ((forall k v, st !! k = Some v -> String.prefix "weeks:" k = true ->
          is_str (prop v "id") W = true -> k = K) ->
         find_week W (getByPrefix "weeks:" (delete_week E st authorization W).2) = None).
Proof.
  split.
  - intros Hn. unfold delete_week. rewrite Hauth, Hn. reflexivity.
  - intros week Hf K.
    assert (Hst : (delete_week E st authorization W).2 = delete K st)
      by (unfold delete_week; rewrite Hauth, Hf; reflexivity).
    split; [unfold delete_week; rewrite Hauth, Hf; reflexivity|].
    rewrite Hst. split; [|split].
    + intros k. destruct (String.eqb k K) eqn:E'.
      * apply String.eqb_eq in E'. subst. apply lookup_delete_eq.
      * apply String.eqb_neq in E'. apply lookup_delete_ne. congruence.
    + intros HK. apply delete_id. exact HK.
    + intros Huniq. apply find_week_none. intros x Hx.
      apply getByPrefix_In in Hx as (k & Hk & Hp).
      destruct (is_str (prop x "id") W) eqn:Hid; [|reflexivity]. exfalso.
      destruct (String.eq_dec K k) as [<-|Hne].
      * rewrite lookup_delete_eq in Hk. discriminate.
      * rewrite lookup_delete_ne in Hk by exact Hne. exact (Hne (eq_sym (Huniq k x Hk Hp Hid))).
Qed.

Lemma delete_week_effect_witness :
  (delete_week demo_env demo_st2 demo_auth "week_1").2 = demo_st2.
Proof.
  destruct (delete_week_effect demo_env demo_st2 demo_auth "u" "week_1") as [_ Hsome].
  - vm_compute. reflexivity.
  - assert (Hf : find_week "week_1" (getByPrefix "weeks:" demo_st2)
                 = Some (JObj [("id", JStr "week_1"); ("subjectId", JStr "S2");
                    ("weekNumber", JNum 1); ("title", JStr "Week 1");
                    ("videoLinks", JArr []); ("audioLinks", JArr []);
                    ("pdfLinks", JArr []); ("questions", JArr []);
                    ("published", JBool false); ("createdAt", JStr "T")]))
      by (vm_compute; reflexivity).
    destruct (Hsome _ Hf) as (_ & _ & Hnone & _). apply Hnone.
    vm_compute. reflexivity.
Defined.

Lemma authenticate_err_status (E : env) (a : option string) (r : response) :
  authenticate E a = inl r -> status r = 401%Z.
Proof.
  unfold authenticate. destruct (bearer_token a) as [tok|]; [|intros H; now injection H as <-].
  destruct (String.eqb tok ""); [intros H; now injection H as <-|].
  destruct (getUser E tok); [discriminate|intros H; now injection H as <-].
Qed.

Lemma authorize_admin_err_status (E : env) (st : store) (a : option string) (r : response) :
  authorize_admin E st a = inl r -> status r = 401%Z \/ status r = 403%Z.
Proof.
  unfold authorize_admin. destruct (authenticate E a) as [r'|uid] eqn:Ha.
  - intros H. injection H as <-. left. exact (authenticate_err_status _ _ _ Ha).
  - destruct (_ || _); [intros H; injection H as <-; now right|discriminate].
Qed.

Lemma truthy_some (v : jsval) : truthy v = true -> exists x, v = Some x.
Proof. destruct v as [x|]; [eauto|discriminate]. Qed.

(** [POST /admin/weeks] either fails and leaves the store as it was, or
    succeeds and stores exactly the week of its response, under the key
    [weeks:<subjectId>:<id>] built from that week's own fields; the id is
    [week_] followed by the fresh suffix. *)
Theorem create_week_stores_response (E : env) (st : store) (authorization : option string)
  (req : option json) :
  ((create_week E st authorization req).1.(status) <> 200%Z ->
   (create_week E st authorization req).2 = st)
  /\ ((create_week E st authorization req).1.(status) = 200%Z ->
      exists w, prop (body (create_week E st authorization req).1) "week" = Some w
        /\ prop w "id" = Some (JStr ("week_" ++ fresh E))
        /\ (create_week E st authorization req).2
           = <["weeks:" ++ tmpl (prop w "subjectId") ++ ":" ++ tmpl (prop w "id") := w]> st).
Proof.
  unfold create_week.
  destruct (authorize_admin E st authorization) as [r|u] eqn:Ha.
  { split; [reflexivity|]. intros H. exfalso. simpl in H.
    destruct (authorize_admin_err_status _ _ _ _ Ha) as [H'|H']; congruence. }
  destruct req as [b|]; [|split; [reflexivity|intros H; discriminate H]].
  destruct b as [|b1|z|s1|l|o];
    [split; [reflexivity|intros H; discriminate H]|..];
    cbv beta iota zeta;
    match goal with |- context [truthy (field ?B "subjectId")] => set (b := B) end.
  all: destruct (truthy (field b "subjectId")) eqn:Hs; cbv beta iota delta [negb orb];
    [|split; [reflexivity|intros H; discriminate H]].
  all: destruct (truthy (field b "weekNumber")); cbv beta iota delta [negb orb];
    [|split; [reflexivity|intros H; discriminate H]].
  all: destruct (truthy (field b "title")); cbv beta iota delta [negb orb];
    [|split; [reflexivity|intros H; discriminate H]].
  all: split; [intros H; contradiction H; reflexivity|intros _].
  all: eexists; split; [reflexivity|]; split; [reflexivity|].
  all: destruct (truthy_some _ Hs) as [x Hx]; rewrite Hx; reflexivity.
Qed.

(** [POST /admin/subjects] either fails and leaves the store as it was, or
    stores exactly the subject of its response under [subjects:<its id>],
    and [GET /subjects] then lists it. *)
Theorem create_subject_stores_response (E : env) (st : store) (authorization : option string)
  (req : option json) :
  ((create_subject E st authorization req).1.(status) <> 200%Z ->
   (create_subject E st authorization req).2 = st)
  /\ ((create_subject E st authorization req).1.(status) = 200%Z ->
      exists s, prop (body (create_subject E st authorization req).1) "subject" = Some s
        /\ prop s "id" = Some (JStr ("subject_" ++ fresh E))
        /\ (create_subject E st authorization req).2 = <["subjects:" ++ tmpl (prop s "id") := s]> st
        /\ In s (list_subjects (create_subject E st authorization req).2)).
Proof.
  unfold create_subject.
  destruct (authorize_admin E st authorization) as [r|u] eqn:Ha.
  { split; [reflexivity|]. intros H. exfalso. simpl in H.
    destruct (authorize_admin_err_status _ _ _ _ Ha) as [H'|H']; congruence. }
  destruct req as [b|]; [|split; [reflexivity|intros H; discriminate H]].
  destruct b as [|b1|z|s1|l|o];
    [split; [reflexivity|intros H; discriminate H]|..];
    cbv beta iota zeta;
    match goal with |- context [truthy (field ?B "name")] => set (b := B) end.
  all: destruct (truthy (field b "name")); cbv beta iota delta [negb];
    [|split; [reflexivity|intros H; discriminate H]].
  all: split; [intros H; contradiction H; reflexivity|intros _].
  all: eexists; split; [reflexivity|]; split; [reflexivity|]; split; [reflexivity|].
  all: apply getByPrefix_In; eexists; split; [apply lookup_insert_eq|apply prefix_app].
Qed.

Lemma loadProgress_ok (E : env) (st : store) (authorization : option string) (uid : string) :
  authenticate E authorization = inr uid ->
  loadProgress E st authorization = getByPrefix ("progress:" ++ uid ++ ":") st.
Proof. intros H. unfold loadProgress, get_progress. rewrite H. reflexivity. Qed.

(** [POST /progress] either fails and leaves the store as it was, or
    stores exactly the record of its response under
    [progress:<user>:<weekId>], with the caller as [userId]; the student's
    next [loadProgress] with a token of the same user contains it. *)
Theorem save_progress_then_load (E : env) (st : store) (authorization : option string)
  (req : option json) :
  ((save_progress E st authorization req).1.(status) <> 200%Z ->
   (save_progress E st authorization req).2 = st)
  /\ ((save_progress E st authorization req).1.(status) = 200%Z ->
      exists uid p, authenticate E authorization = inr uid
        /\ prop (body (save_progress E st authorization req).1) "progress" = Some p
        /\ prop p "userId" = Some (JStr uid)
        /\ (save_progress E st authorization req).2
           = <["progress:" ++ uid ++ ":" ++ tmpl (prop p "weekId") := p]> st
        /\ forall E', authenticate E' authorization = inr uid ->
           In p (loadProgress E' (save_progress E st authorization req).2 authorization)).
Proof.
  unfold save_progress.
  destruct (authenticate E authorization) as [r|uid] eqn:Ha.
  { split; [reflexivity|]. intros H. exfalso. simpl in H.
    rewrite (authenticate_err_status _ _ _ Ha) in H. discriminate. }
  destruct req as [b|]; [|split; [reflexivity|intros H; discriminate H]].
  destruct b as [|b1|z|s1|l|o];
    [split; [reflexivity|intros H; discriminate H]|..];
    cbv beta iota zeta;
    match goal with |- context [field ?B "weekId"] => set (b := B) end.
  all: split; [intros H; contradiction H; reflexivity|intros _].
  all: eexists; eexists; split; [reflexivity|]; split; [reflexivity|]; split; [reflexivity|].
  all: match goal with |- ?L = _ /\ _ => assert (Hst : L = <["progress:" ++ uid ++ ":" ++
         tmpl (field b "weekId") := JObj ([("userId", JStr uid)] ++
              match field b "weekId" with Some w => [("weekId", w)] | None => [] end ++
              [("completed", or_else (field b "completed") (JBool false));
               ("lastAccessed", JStr (now E))])%list]> st) by reflexivity end.
  all: rewrite Hst; split;
    [destruct (field b "weekId"); reflexivity
    |intros E' HE'; rewrite (loadProgress_ok _ _ _ _ HE');
     apply getByPrefix_In; eexists; split;
     [apply lookup_insert_eq|rewrite !str_app_assoc; apply prefix_app]].
Qed.

(** ** Further properties of the student client *)

(** [getWeekStatus] never locks a week; it reports [completed] exactly for
    completed weeks; [current] only for a started week that is the first one
    or follows a completed week; a completed week counts as started. *)
Theorem getWeekStatus_cases (progressData : list json) (weeks : list string)
  (weekId : string) (index : nat) :
  getWeekStatus progressData weeks weekId index <> Locked
  /\ (getWeekStatus progressData weeks weekId index = Completed
      <-> isWeekCompleted progressData weekId = true)
  /\ (getWeekStatus progressData weeks weekId index = Current ->
      isWeekStarted progressData weekId = true
      /\ (index = O \/ exists i prev, index = S i /\ nth_error weeks i = Some prev
                                     /\ isWeekCompleted progressData prev = true))
  /\ (isWeekCompleted progressData weekId = true -> isWeekStarted progressData weekId = true).
Proof.
  assert (Hcs : isWeekCompleted progressData weekId = true ->
                isWeekStarted progressData weekId = true).
  { unfold isWeekCompleted, isWeekStarted. intros H.
    apply existsb_exists in H as (p & Hin & Hp). apply andb_true_iff in Hp as [Hp _].
    apply existsb_exists. eauto. }
  unfold getWeekStatus.
  destruct (isWeekCompleted progressData weekId) eqn:Hc.
  { split; [discriminate|]. split; [tauto|]. split; [discriminate|exact Hcs]. }
  destruct index as [|i].
  - destruct (isWeekStarted progressData weekId) eqn:Hs;
      (split; [discriminate|]); (split; [split; discriminate|]);
      (split; [|discriminate]); [intros _; auto|discriminate].
  - destruct (nth_error weeks i) as [prev|] eqn:Hn;
      [destruct (isWeekCompleted progressData prev) eqn:Hp;
       [destruct (isWeekStarted progressData weekId) eqn:Hs|]|].
    all: (split; [discriminate|]); (split; [split; discriminate|]);
      (split; [|discriminate]).
    all: try discriminate.
    intros _. split; [reflexivity|]. right. eauto.
Qed.

(** Submitting a quiz ([handleSubmitQuiz]) saves the week as completed and
    the progress the student reloads marks it completed, so [getWeekStatus]
    shows it as [completed] wherever it is listed. *)
Theorem handleSubmitQuiz_completes (E : env) (st : store) (authorization : option string)
  (s weekId : string) (Hauth : authenticate E authorization = inr s) :
  isWeekCompleted (handleSubmitQuiz E st authorization weekId).2 weekId = true
  /\ forall weeks index,
     getWeekStatus (handleSubmitQuiz E st authorization weekId).2 weeks weekId index = Completed.
Proof.
  assert (Hc : isWeekCompleted (handleSubmitQuiz E st authorization weekId).2 weekId = true).
  { unfold handleSubmitQuiz. cbv zeta. simpl snd.
    rewrite (loadProgress_ok _ _ _ _ Hauth).
    set (p := JObj [("userId", JStr s); ("weekId", JStr weekId);
                    ("completed", JBool true); ("lastAccessed", JStr (now E))]).
    assert (Hst : (saveProgress E st authorization weekId true).2
                  = <["progress:" ++ s ++ ":" ++ weekId := p]> st)
      by (unfold saveProgress, save_progress; rewrite Hauth; reflexivity).
    rewrite Hst. unfold isWeekCompleted. apply existsb_exists. exists p. split.
    - apply getByPrefix_In. eexists. split; [apply lookup_insert_eq|].
      rewrite !str_app_assoc. apply prefix_app.
    - simpl. now rewrite String.eqb_refl. }
  split; [exact Hc|]. intros weeks index.
  unfold getWeekStatus. now rewrite Hc.
Qed.

Lemma handleSubmitQuiz_completes_witness :
  getWeekStatus (handleSubmitQuiz demo_env ∅ demo_auth "week_1").2 ["week_1"] "week_1" 0
  = Completed.
Proof.
  destruct (handleSubmitQuiz_completes demo_env ∅ demo_auth "u" "week_1") as [_ H].
  - vm_compute. reflexivity.
  - apply H.
Defined.

(** ** Further properties of the account endpoints *)

Ltac split_ifs :=
  repeat match goal with |- context [if ?c then _ else _] => destruct c end.

(** [POST /admin/signup] with an [adminSecret] other than the string
    ['admin123'] answers 403 and changes nothing, whatever the identity
    provider would do. *)
Theorem admin_signup_rejects_bad_secret (E : env) (P : provider) (st : store) (b : json)
  (Hb : b <> JNull) (Hsecret : is_str (field b "adminSecret") "admin123" = false) :
  admin_signup E P st (Some b) = (err 403 "Invalid admin secret", st).
Proof.
  destruct b; [contradiction|..]; unfold admin_signup; cbv beta iota zeta;
    rewrite Hsecret; reflexivity.
Qed.

Lemma admin_signup_rejects_bad_secret_witness :
  admin_signup demo_env (mkProvider (fun _ _ _ => inr "n1")) ∅
    (Some (JObj [("email", JStr "a@b"); ("password", JStr "pw"); ("name", JStr "A");
                 ("adminSecret", JStr "admin")]))
  = (err 403 "Invalid admin secret", ∅).
Proof. apply admin_signup_rejects_bad_secret; [discriminate|reflexivity]. Defined.

(** A failed [POST /admin/signup] leaves the store as it was; a successful
    one stores an admin profile for the new user, so that user's token then
    passes the admin check of every admin endpoint and [GET /user] returns
    the profile with role ['admin']. *)
Theorem admin_signup_grants_admin (E : env) (P : provider) (st : store) (req : option json) :
  ((admin_signup E P st req).1.(status) <> 200%Z -> (admin_signup E P st req).2 = st)
  /\ ((admin_signup E P st req).1.(status) = 200%Z ->
      exists id, prop_opt (prop (body (admin_signup E P st req).1) "user") "id" = Some (JStr id)
      /\ forall E' a, authenticate E' a = inr id ->
         authorize_admin E' (admin_signup E P st req).2 a = inr id
         /\ exists prof, get_user E' (admin_signup E P st req).2 a
                         = mkResponse 200 (JObj [("user", prof)])
                         /\ prop prof "role" = Some (JStr "admin")).
Proof.
  unfold admin_signup. destruct req as [b|]; [|split; [reflexivity|intros H; discriminate H]].
  destruct b; [split; [reflexivity|intros H; discriminate H]|..]; cbv beta iota zeta.
  all: split_ifs; try (split; [reflexivity|intros H; discriminate H]).
  all: unfold create_account; destruct (createUser P _ _ _) as [msg|id];
    [split; [reflexivity|intros H; discriminate H]|].
  all: split; [intros H; contradiction H; reflexivity|intros _].
  all: exists id; split; [reflexivity|]; intros E' a Ha.
  all: cbn [fst snd]; unfold authorize_admin, get_user; rewrite Ha; cbv zeta;
    unfold kv_get, kv_set; rewrite lookup_insert_eq;
    split; [reflexivity|eexists; split; reflexivity].
Qed.

Lemma admin_signup_grants_admin_witness :
  authorize_admin demo_env
    (admin_signup demo_env (mkProvider (fun _ _ _ => inr "u")) ∅
       (Some (JObj [("email", JStr "a@b"); ("password", JStr "pw"); ("name", JStr "A");
                    ("adminSecret", JStr "admin123")]))).2 demo_auth = inr "u".
Proof.
  destruct (admin_signup_grants_admin demo_env (mkProvider (fun _ _ _ => inr "u")) ∅
              (Some (JObj [("email", JStr "a@b"); ("password", JStr "pw"); ("name", JStr "A");
                           ("adminSecret", JStr "admin123")]))) as [_ H].
  destruct H as (id & Hid & Hall); [reflexivity|].
  assert (Hu : id = "u") by (vm_compute in Hid; congruence). subst id.
  apply Hall. vm_compute. reflexivity.
Defined.

(** A failed [POST /signup] leaves the store as it was; a successful one
    stores a student profile for the new user: [GET /user] with that user's
    token returns it with role ['student'], and every admin endpoint
    answers it with 403. *)
Theorem signup_creates_student (E : env) (P : provider) (st : store) (req : option json) :
  ((signup E P st req).1.(status) <> 200%Z -> (signup E P st req).2 = st)
  /\ ((signup E P st req).1.(status) = 200%Z ->
      exists id, prop_opt (prop (body (signup E P st req).1) "user") "id" = Some (JStr id)
      /\ forall E' a, authenticate E' a = inr id ->
         authorize_admin E' (signup E P st req).2 a = inl admin_required
         /\ exists prof, get_user E' (signup E P st req).2 a
                         = mkResponse 200 (JObj [("user", prof)])
                         /\ prop prof "role" = Some (JStr "student")).
Proof.
  unfold signup. destruct req as [b|]; [|split; [reflexivity|intros H; discriminate H]].
  destruct b; [split; [reflexivity|intros H; discriminate H]|..]; cbv beta iota zeta.
  all: split_ifs; try (split; [reflexivity|intros H; discriminate H]).
  all: unfold create_account; destruct (createUser P _ _ _) as [msg|id];
    [split; [reflexivity|intros H; discriminate H]|].
  all: split; [intros H; contradiction H; reflexivity|intros _].
  all: exists id; split; [reflexivity|]; intros E' a Ha.
  all: cbn [fst snd]; unfold authorize_admin, get_user; rewrite Ha; cbv zeta;
    unfold kv_get, kv_set; rewrite lookup_insert_eq;
    split; [reflexivity|eexists; split; reflexivity].
Qed.

Lemma signup_creates_student_witness :
  authorize_admin demo_env
    (signup demo_env (mkProvider (fun _ _ _ => inr "u")) ∅
       (Some (JObj [("email", JStr "a@b"); ("password", JStr "pw"); ("name", JStr "A")]))).2
    demo_auth = inl admin_required.
Proof.
  destruct (signup_creates_student demo_env (mkProvider (fun _ _ _ => inr "u")) ∅
              (Some (JObj [("email", JStr "a@b"); ("password", JStr "pw");
                           ("name", JStr "A")]))) as [_ H].
  destruct H as (id & Hid & Hall); [reflexivity|].
  assert (Hu : id = "u") by (vm_compute in Hid; congruence). subst id.
  apply Hall. vm_compute. reflexivity.
Defined.

(** ** Extracting a Google Drive file id *)

Lemma list_of_str_of_list (l : list ascii) : list_of_str (str_of_list l) = l.
Proof. induction l as [|c l IH]; [reflexivity|exact (f_equal (cons c) IH)]. Qed.

Lemma str_of_list_of_str (s : string) : str_of_list (list_of_str s) = s.
Proof. induction s as [|c s IH]; [reflexivity|exact (f_equal (String c) IH)]. Qed.

Lemma list_of_str_app (a b : string) :
  list_of_str (a ++ b) = (list_of_str a ++ list_of_str b)%list.
Proof. induction a as [|c a IH]; [reflexivity|exact (f_equal (cons c) IH)]. Qed.

Lemma starts_with_app (p l : list ascii) :
  starts_with p l = true -> l = (p ++ drop (length p) l)%list.
Proof.
  revert l; induction p as [|c p IH]; intros l H; [reflexivity|].
  destruct l as [|c' l]; [discriminate H|].
  simpl in H. apply andb_prop in H as [Hc H]. apply Ascii.eqb_eq in Hc. subst c'.
  simpl. f_equal. now apply IH.
Qed.

Lemma starts_with_app_l (p v : list ascii) : starts_with p (p ++ v)%list = true.
Proof. induction p as [|c p IH]; [reflexivity|simpl; rewrite Ascii.eqb_refl; exact IH]. Qed.

(** The greedy run stops at the end of the input or at a character outside
    the class. *)
Definition run_stop (v : list ascii) : Prop :=
  match v with [] => True | c :: _ => is_drive_id_char c = false end.

Lemma drive_run_spec (l : list ascii) :
  exists v, l = (drive_run l ++ v)%list /\ forallb is_drive_id_char (drive_run l) = true
            /\ run_stop v.
Proof.
  induction l as [|c l (v & Hl & Hall & Hv)]; [exists []; done|].
  simpl. destruct (is_drive_id_char c) eqn:Hc.
  - exists v. simpl. rewrite Hc. split; [now f_equal|done].
  - exists (c :: l). done.
Qed.

Lemma drive_run_app (r v : list ascii) :
  forallb is_drive_id_char r = true -> run_stop v -> drive_run (r ++ v)%list = r.
Proof.
  intros Hr Hv. induction r as [|c r IH].
  - destruct v as [|c v]; [reflexivity|]. simpl in *. now rewrite Hv.
  - simpl in Hr. apply andb_prop in Hr as [Hc Hr]. simpl. rewrite Hc. f_equal. auto.
Qed.

Lemma capture_at_sound (ps : list (list ascii)) (l r : list ascii) :
  capture_at ps l = Some r ->
  r <> [] /\ exists p, In p ps /\ starts_with p l = true /\ drive_run (drop (length p) l) = r.
Proof.
  induction ps as [|p ps IH]; [discriminate|]. simpl.
  destruct (starts_with p l) eqn:Hs; [|intros H; destruct (IH H) as (Hr & q & ? & ?); eauto 6].
  destruct (drive_run (drop (length p) l)) as [|c r'] eqn:Hd.
  - intros H; destruct (IH H) as (Hr & q & ? & ?); eauto 6.
  - intros H; injection H as <-. split; [discriminate|eauto].
Qed.

Lemma first_capture_sound (ps : list (list ascii)) (l r : list ascii) :
  first_capture ps l = Some r -> exists u l', l = (u ++ l')%list /\ capture_at ps l' = Some r.
Proof.
  induction l as [|c l IH]; simpl.
  - destruct (capture_at ps []) eqn:H; [intros E; injection E as <-; now exists [], []|discriminate].
  - destruct (capture_at ps (c :: l)) eqn:H.
    + intros E; injection E as <-. now exists [], (c :: l).
    + intros E. destruct (IH E) as (u & l' & -> & Hc). now exists (c :: u), l'.
Qed.

Lemma first_capture_match (ps : list (list ascii)) (l r : list ascii) :
  first_capture ps l = Some r ->
  r <> [] /\ forallb is_drive_id_char r = true /\
  exists u p v, In p ps /\ l = (u ++ p ++ r ++ v)%list /\ run_stop v.
Proof.
  intros H. destruct (first_capture_sound _ _ _ H) as (u & l' & -> & Hc).
  destruct (capture_at_sound _ _ _ Hc) as (Hr & p & Hp & Hs & Hd).
  destruct (drive_run_spec (drop (length p) l')) as (v & Hl & Hall & Hv).
  rewrite Hd in Hl, Hall. split; [done|split; [done|]].
  exists u, p, v. split; [done|split; [|done]].
  f_equal. rewrite (starts_with_app p l' Hs) at 1. now rewrite <- Hl.
Qed.

Lemma first_capture_no_slash (l : list ascii) :
  forallb (fun c => negb (Ascii.eqb c "/"%char)) l = true ->
  first_capture [list_of_str "/d/"] l = None.
Proof.
  induction l as [|c l IH]; [reflexivity|]. intros H. cbn [forallb] in H.
  apply andb_prop in H as [Hc H]. apply negb_true_iff in Hc.
  cbn [first_capture capture_at starts_with list_of_str].
  rewrite (Ascii.eqb_sym "/"%char c), Hc. cbn [andb capture_at]. now apply IH.
Qed.

Lemma drive_id_char_not_slash (c : ascii) :
  is_drive_id_char c = true -> negb (Ascii.eqb c "/"%char) = true.
Proof. destruct (Ascii.eqb_spec c "/"%char) as [->|]; [discriminate|reflexivity]. Qed.

(** Whatever [extractGoogleDriveId] returns is a nonempty run of
    [[a-zA-Z0-9_-]] characters that occurs in the URL right after ['/d/'],
    ['?id='] or ['&id='] and is not followed by another such character. *)
Theorem extractGoogleDriveId_sound (url id : string) :
  extractGoogleDriveId url = Some id ->
  id <> "" /\ forallb is_drive_id_char (list_of_str id) = true /\
  exists u p v, In p ["/d/"; "?id="; "&id="] /\
    list_of_str url = (u ++ list_of_str p ++ list_of_str id ++ v)%list /\ run_stop v.
Proof.
  unfold extractGoogleDriveId.
  destruct (first_capture [list_of_str "/d/"] (list_of_str url)) as [r|] eqn:H1.
  - intros E; injection E as <-.
    destruct (first_capture_match _ _ _ H1) as (Hr & Hall & u & p & v & Hp & Hl & Hv).
    rewrite list_of_str_of_list. split; [destruct r; [done|discriminate]|split; [done|]].
    destruct Hp as [<-|[]]. exists u, "/d/", v. split; [left; reflexivity|done].
  - destruct (first_capture [list_of_str "?id="; list_of_str "&id="] (list_of_str url))
      as [r|] eqn:H2; [|discriminate].
    intros E; injection E as <-.
    destruct (first_capture_match _ _ _ H2) as (Hr & Hall & u & p & v & Hp & Hl & Hv).
    rewrite list_of_str_of_list. split; [destruct r; [done|discriminate]|split; [done|]].
    destruct Hp as [<-|[<-|[]]].
    + exists u, "?id=", v. split; [right; left; reflexivity|done].
    + exists u, "&id=", v. split; [right; right; left; reflexivity|done].
Qed.

Lemma extractGoogleDriveId_sound_witness :
  extractGoogleDriveId "https://x.org/?a=1&id=Q-7#top" = Some "Q-7" /\
  exists u p v, In p ["/d/"; "?id="; "&id="] /\
    list_of_str "https://x.org/?a=1&id=Q-7#top" = (u ++ list_of_str p ++ list_of_str "Q-7" ++ v)%list
    /\ run_stop v.
Proof.
  assert (H : extractGoogleDriveId "https://x.org/?a=1&id=Q-7#top" = Some "Q-7")
    by (vm_compute; reflexivity).
  split; [exact H|].
  destruct (extractGoogleDriveId_sound _ _ H) as (_ & _ & Hex). exact Hex.
Defined.

(** A Drive share link [https://drive.google.com/file/d/ID...] gives back
    [ID] when [ID] is a nonempty run of [[a-zA-Z0-9_-]] characters and what
    follows it does not start with one. *)
Theorem extractGoogleDriveId_file_link (id rest : string)
  (Hid : id <> "") (Hchars : forallb is_drive_id_char (list_of_str id) = true)
  (Hrest : run_stop (list_of_str rest)) :
  extractGoogleDriveId ("https://drive.google.com/file/d/" ++ id ++ rest) = Some id.
Proof.
  assert (HL : drive_run (list_of_str id ++ list_of_str rest) = list_of_str id)
    by now apply drive_run_app.
  unfold extractGoogleDriveId. rewrite !list_of_str_app.
  remember (list_of_str id ++ list_of_str rest)%list as L eqn:EL.
  simpl. change (drop 0 L) with L. rewrite HL.
  destruct id as [|c id']; [contradiction|]. simpl.
  rewrite str_of_list_of_str. reflexivity.
Qed.

Lemma extractGoogleDriveId_file_link_witness :
  extractGoogleDriveId ("https://drive.google.com/file/d/" ++ "1AbC-_x9" ++ "/view?usp=sharing")
  = Some "1AbC-_x9".
Proof. apply extractGoogleDriveId_file_link; [discriminate|reflexivity|reflexivity]. Defined.

(** A Drive link [https://drive.google.com/open?id=ID...] gives back [ID]
    under the same conditions, when the rest of the URL has no ['/'] (a
    ['/d/'] anywhere in the URL would take precedence). *)
Theorem extractGoogleDriveId_open_link (id rest : string)
  (Hid : id <> "") (Hchars : forallb is_drive_id_char (list_of_str id) = true)
  (Hrest : run_stop (list_of_str rest))
  (Hslash : forallb (fun c => negb (Ascii.eqb c "/"%char)) (list_of_str rest) = true) :
  extractGoogleDriveId ("https://drive.google.com/open?id=" ++ id ++ rest) = Some id.
Proof.
  assert (HL : drive_run (list_of_str id ++ list_of_str rest) = list_of_str id)
    by now apply drive_run_app.
  assert (H0 : first_capture [list_of_str "/d/"] (list_of_str id ++ list_of_str rest) = None).
  { apply first_capture_no_slash. rewrite forallb_app, Hslash, andb_true_r.
    apply forallb_forall. intros c Hc. apply drive_id_char_not_slash.
    exact (proj1 (forallb_forall _ _) Hchars c Hc). }
  unfold extractGoogleDriveId. rewrite !list_of_str_app.
  remember (list_of_str id ++ list_of_str rest)%list as L eqn:EL.
  simpl in H0 |- *. rewrite H0. simpl. change (drop 0 L) with L. rewrite HL.
  destruct id as [|c id']; [contradiction|]. simpl.
  rewrite str_of_list_of_str. reflexivity.
Qed.

Lemma extractGoogleDriveId_open_link_witness :
  extractGoogleDriveId ("https://drive.google.com/open?id=" ++ "XyZ_1-2" ++ "&usp=drive_fs")
  = Some "XyZ_1-2".
Proof.
  apply extractGoogleDriveId_open_link; [discriminate|reflexivity|reflexivity|reflexivity].
Defined.

(** ** The week editor's form operations *)

Lemma get_set_links_eq (f : WeekForm) (t : link_type) (x : list ContentItem) :
  get_links (set_links f t x) t = x.
Proof. destruct t; reflexivity. Qed.

Lemma get_set_links_ne (f : WeekForm) (t t' : link_type) (x : list ContentItem) :
  t' <> t -> get_links (set_links f t x) t' = get_links f t'.
Proof. destruct t, t'; intros H; (reflexivity || (contradiction H; reflexivity)). Qed.

Lemma filter_index_all {A} (keep : Z -> bool) (k : Z) (l : list A) :
  (forall i, (k <= i)%Z -> keep i = true) -> filter_index keep k l = l.
Proof.
  revert k; induction l as [|x l IH]; intros k H; [reflexivity|].
  simpl. rewrite (H k) by lia. f_equal. apply IH. intros i Hi. apply H. lia.
Qed.

Lemma filter_index_remove {A} (l : list A) (k idx : Z) (n : nat) :
  idx = (k + Z.of_nat n)%Z ->
  filter_index (fun i => negb (Z.eqb i idx)) k l = (take n l ++ drop (S n) l)%list.
Proof.
  revert k n; induction l as [|x l IH]; intros k n Hidx; [destruct n; reflexivity|].
  simpl. destruct n as [|m].
  - destruct (Z.eqb_spec k idx); [|lia]. simpl.
    apply filter_index_all. intros i Hi. destruct (Z.eqb_spec i idx); [lia|reflexivity].
  - destruct (Z.eqb_spec k idx); [lia|]. simpl. f_equal. apply IH. lia.
Qed.

(** [removeContentLink(type, n)] takes out exactly the [n]-th link of that
    type (none when [n] is past the end) and puts back one blank link when
    none would be left; the other link types are untouched. *)
Theorem removeContentLink_removes (f : WeekForm) (t : link_type) (n : nat) :
  get_links (removeContentLink f t (Z.of_nat n)) t
    = match (take n (get_links f t) ++ drop (S n) (get_links f t))%list with
      | [] => [empty_link]
      | _ => (take n (get_links f t) ++ drop (S n) (get_links f t))%list
      end
  /\ forall t', t' <> t -> get_links (removeContentLink f t (Z.of_nat n)) t' = get_links f t'.
Proof.
  unfold removeContentLink. cbv zeta.
  rewrite (filter_index_remove _ 0 (Z.of_nat n) n) by lia.
  split; [apply get_set_links_eq|intros t' Ht; now apply get_set_links_ne].
Qed.

(** [removeQuestion(n)] takes out exactly the [n]-th question (none when
    [n] is past the end). *)
Theorem removeQuestion_removes (f : WeekForm) (n : nat) :
  wf_questions (removeQuestion f (Z.of_nat n))
  = (take n (wf_questions f) ++ drop (S n) (wf_questions f))%list.
Proof. unfold removeQuestion; simpl. apply filter_index_remove. lia. Qed.

Ltac links_nonempty Hf :=
  first [ exact (Hf VideoLinks) | exact (Hf AudioLinks) | exact (Hf PdfLinks)
        | discriminate
        | (let H := fresh in intros H; apply app_eq_nil in H as [_ H]; discriminate) ].

(** The week editor always shows at least one input for each link type: a
    fresh form and a form filled by [editWeek] have one, and adding or
    removing links or questions keeps one. *)
Theorem links_present_invariant :
  (forall n, links_present (resetWeekForm n))
  /\ (forall w, links_present (editWeek w))
  /\ (forall f, links_present f ->
        (forall t, links_present (addContentLink f t))
        /\ (forall t i, links_present (removeContentLink f t i))
        /\ (forall k, links_present (addQuestion f k))
        /\ (forall i, links_present (removeQuestion f i))).
Proof.
  split; [intros n t; destruct t; discriminate|].
  split.
  { intros w t. destruct t; simpl; unfold links_or_empty;
      match goal with |- context [Nat.ltb 0 ?n] => destruct (Nat.ltb_spec 0 n) as [Hl|Hl] end;
      try discriminate; intros H; rewrite H in Hl; simpl in Hl; lia. }
  intros f Hf. split; [|split; [|split]].
  - intros t t'. unfold addContentLink. destruct t, t'; simpl; links_nonempty Hf.
  - intros t i t'. unfold removeContentLink. cbv zeta.
    destruct (filter_index _ 0 (get_links f t)); destruct t, t'; simpl; links_nonempty Hf.
  - intros k t'. destruct t'; simpl; links_nonempty Hf.
  - intros i t'. destruct t'; simpl; links_nonempty Hf.
Qed.

(** Turning bare URL strings into [{ url, title: '' }] items, as the editor
    does, changes neither the URL nor the title the student view shows for
    any link. *)
Theorem normalizeContentLinks_display (links : list link) (defaultTitle : string) :
  map (fun x => (getContentUrl x, getContentTitle x defaultTitle))
      (map LinkItem (normalizeContentLinks links))
  = map (fun x => (getContentUrl x, getContentTitle x defaultTitle)) links.
Proof. induction links as [|[s|c] l IH]; simpl; [reflexivity|f_equal; exact IH|f_equal; exact IH]. Qed.

(** ** Sorting the server's week list again on the clients *)

Lemma StronglySorted_app_cons_l {A} (R : A -> A -> Prop) (acc l : list A) (x y : A) :
  StronglySorted R (acc ++ x :: l)%list -> In y acc -> R y x.
Proof.
  induction acc as [|a acc IH]; intros Hs Hy; [destruct Hy|].
  apply StronglySorted_inv in Hs as [Hs Hall]. destruct Hy as [<-|Hy].
  - rewrite List.Forall_forall in Hall. apply Hall, in_or_app. right; left; reflexivity.
  - now apply IH.
Qed.

Lemma StronglySorted_filter {A} (R : A -> A -> Prop) (P : A -> Prop) `{!forall x, Decision (P x)}
  (l : list A) : StronglySorted R l -> StronglySorted R (filter P l).
Proof.
  induction l as [|a l IH]; intros Hs; [constructor|].
  apply StronglySorted_inv in Hs as [Hs Hall]. rewrite filter_cons.
  destruct (decide (P a)); [|now apply IH].
  constructor; [now apply IH|]. rewrite List.Forall_forall in *.
  intros y Hy. apply list_elem_of_In, list_elem_of_filter in Hy as [_ Hy].
  apply Hall, list_elem_of_In, Hy.
Qed.

Lemma insert_sorted_last (x : json) (acc : list json) :
  Forall (fun y => by_week_number_lt x y = false) acc -> insert_sorted x acc = (acc ++ [x])%list.
Proof.
  induction acc as [|y acc IH]; intros H; [reflexivity|].
  inversion H as [|? ? Hy H']; subst. simpl. rewrite Hy. f_equal. now apply IH.
Qed.

Lemma sort_fold_sorted (l acc : list json) :
  Forall numeric (acc ++ l) -> StronglySorted week_le (acc ++ l) ->
  fold_left (fun acc x => insert_sorted x acc) l acc = (acc ++ l)%list.
Proof.
  revert acc; induction l as [|x l IH]; intros acc Hn Hs; simpl; [now rewrite app_nil_r|].
  rewrite insert_sorted_last.
  - rewrite IH; rewrite <- app_assoc; [reflexivity|exact Hn|exact Hs].
  - apply List.Forall_forall. intros y Hy.
    destruct (StronglySorted_app_cons_l _ _ _ _ _ Hs Hy) as (zy & zx & Hzy & Hzx & Hle).
    rewrite (by_week_number_lt_spec x y zx zy Hzx Hzy). apply Z.ltb_ge. lia.
Qed.

Lemma sort_by_week_number_sorted_id (l : list json) :
  Forall numeric l -> Sorted week_le l -> sort_by_week_number l = l.
Proof.
  intros Hn Hs. apply (sort_fold_sorted l []); [exact Hn|].
  apply Sorted_StronglySorted; [exact week_le_trans|exact Hs].
Qed.

Lemma list_weeks_numeric_sorted (st : store) (S : string) :
  Forall numeric (getByPrefix ("weeks:" ++ S ++ ":") st) ->
  Forall numeric (list_weeks st S) /\ Sorted week_le (list_weeks st S).
Proof.
  intros Hn. destruct (sort_by_week_number_spec _ Hn) as (Hs & Hp & _).
  split; [|exact Hs]. rewrite List.Forall_forall in *. intros w Hw.
  apply Hn. eapply Permutation_in; [exact Hp|exact Hw].
Qed.

(** When every stored week of the subject has a numeric [weekNumber], the
    admin client's [loadWeeks] sort leaves the server's list as it is. *)
Theorem admin_loadWeeks_keeps_order (st : store) (S : string)
  (Hnum : Forall numeric (getByPrefix ("weeks:" ++ S ++ ":") st)) :
  admin_loadWeeks st S = list_weeks st S.
Proof.
  destruct (list_weeks_numeric_sorted st S Hnum) as [Hn Hs].
  unfold admin_loadWeeks. now apply sort_by_week_number_sorted_id.
Qed.

Definition demo_sort_store : store :=
  <["weeks:S:b" := wk "b" 2]> (<["weeks:S:a" := wk "a" 1]> (<["weeks:S:c" := wk "c" 1]> ∅)).

Lemma admin_loadWeeks_keeps_order_witness :
  admin_loadWeeks demo_sort_store "S" = list_weeks demo_sort_store "S".
Proof.
  apply admin_loadWeeks_keeps_order.
  assert (E : getByPrefix ("weeks:" ++ "S" ++ ":") demo_sort_store = [wk "c" 1; wk "a" 1; wk "b" 2])
    by (vm_compute; reflexivity).
  rewrite E. repeat constructor; eexists; reflexivity.
Defined.

(** Under the same condition, the student client's [loadWeeks] (keep the
    published weeks, then sort) gives the published weeks in the server's
    order. *)
Theorem student_loadWeeks_keeps_order (st : store) (S : string)
  (Hnum : Forall numeric (getByPrefix ("weeks:" ++ S ++ ":") st)) :
  student_weeks (list_weeks st S)
  = filter (fun w => truthy (prop w "published") = true) (list_weeks st S).
Proof.
  destruct (list_weeks_numeric_sorted st S Hnum) as [Hn Hs].
  unfold student_weeks. apply sort_by_week_number_sorted_id.
  - rewrite List.Forall_forall in *. intros w Hw.
    apply list_elem_of_In, list_elem_of_filter in Hw as [_ Hw]. apply Hn, list_elem_of_In, Hw.
  - apply StronglySorted_Sorted, StronglySorted_filter, Sorted_StronglySorted;
      [exact week_le_trans|exact Hs].
Qed.

Lemma student_loadWeeks_keeps_order_witness :
  student_weeks (list_weeks demo_published_st "S")
  = filter (fun w => truthy (prop w "published") = true) (list_weeks demo_published_st "S")
  /\ map (fun w => prop w "id") (student_weeks (list_weeks demo_published_st "S"))
     = [Some (JStr "b"); Some (JStr "d"); Some (JStr "a")].
Proof.
  assert (H : student_weeks (list_weeks demo_published_st "S")
              = filter (fun w => truthy (prop w "published") = true)
                       (list_weeks demo_published_st "S")).
  { apply student_loadWeeks_keeps_order.
    assert (E : getByPrefix ("weeks:" ++ "S" ++ ":") demo_published_st
                = [demo_published_week "c" 1 false; demo_published_week "a" 2 true;
                   demo_published_week "b" 1 true; demo_published_week "d" 1 true])
      by (vm_compute; reflexivity).
    rewrite E. repeat constructor; eexists; reflexivity. }
  split; [exact H|]. rewrite H. vm_compute. reflexivity.
Defined.

(** ** Deleting a subject *)

Lemma prefix_weeks_not_subject (S x : string) :
  String.prefix ("weeks:" ++ x) ("subjects:" ++ S) = false.
Proof. reflexivity. Qed.

(** Claim C2 (amended): [DELETE /admin/subjects/:id] removes the key
    [subjects:<id>] and, for every week found under the prefix [weeks:<id>:],
    the key [weeks:<id>:<that week's id field>], and no other key. When
    every key under that prefix is built this way from its week's [id], and
    subject records are stored under [subjects:<their id>], then afterwards
    the subject is absent from the subject listing and [GET /weeks/:id]
    returns the empty list; every key outside the subject key and the week
    prefix is unchanged. *)
Theorem delete_subject_by_namespace (E : env) (st : store) (authorization : option string)
  (uid S : string) (Hauth : authorize_admin E st authorization = inr uid) :
  let st' := (delete_subject E st authorization S).2 in
  let scan := getByPrefix ("weeks:" ++ S ++ ":") st in
  (forall k, k = "subjects:" ++ S
             \/ (exists w, In w scan /\ k = "weeks:" ++ S ++ ":" ++ tmpl (prop w "id")) ->
             st' !! k = None)
  /\ (forall k, k <> "subjects:" ++ S ->
      (forall w, In w scan -> k <> "weeks:" ++ S ++ ":" ++ tmpl (prop w "id")) ->
      st' !! k = st !! k)
  /\ ((forall k v, st !! k = Some v -> String.prefix "subjects:" k = true ->
       prop v "id" = Some (JStr S) -> k = "subjects:" ++ S) ->
      forall v, In v (list_subjects st') -> prop v "id" <> Some (JStr S))
  /\ ((forall k v, st !! k = Some v -> String.prefix ("weeks:" ++ S ++ ":") k = true ->
       k = "weeks:" ++ S ++ ":" ++ tmpl (prop v "id")) ->
      list_weeks st' S = [])
  /\ (forall k, k <> "subjects:" ++ S -> String.prefix ("weeks:" ++ S ++ ":") k = false ->
      st' !! k = st !! k).
Proof.
  intros st' scan.
  set (f := fun w => "weeks:" ++ S ++ ":" ++ tmpl (prop w "id")).
  set (st1 := kv_del ("subjects:" ++ S) st).
  set (scan1 := getByPrefix ("weeks:" ++ S ++ ":") st1).
  assert (Hlk : forall k, st' !! k
                = if existsb (fun w => String.eqb (f w) k) scan1 then None else st1 !! k).
  { intros k. subst st'. unfold delete_subject. rewrite Hauth. apply fold_del_lookup. }
  assert (Hst1 : forall k, k <> "subjects:" ++ S -> st1 !! k = st !! k).
  { intros k Hne. unfold st1, kv_del. rewrite lookup_delete_ne by congruence. reflexivity. }
  assert (Hscan : forall w, In w scan1 <-> In w scan).
  { intros w. unfold scan1, scan. rewrite !getByPrefix_In.
    split; intros (k & Hk & Hp); exists k; split; auto.
    - destruct (String.eq_dec k ("subjects:" ++ S)) as [->|Hne].
      + rewrite prefix_weeks_not_subject in Hp. discriminate.
      + now rewrite <- Hst1.
    - destruct (String.eq_dec k ("subjects:" ++ S)) as [->|Hne].
      + rewrite prefix_weeks_not_subject in Hp. discriminate.
      + now rewrite Hst1. }
  assert (Hkeep : forall k, k <> "subjects:" ++ S -> (forall w, In w scan -> k <> f w) ->
                  st' !! k = st !! k).
  { intros k Hne Hw. rewrite Hlk. destruct (existsb _ scan1) eqn:Hex.
    - apply existsb_exists in Hex as (w & Hin & Hfw). apply String.eqb_eq in Hfw.
      apply Hscan in Hin. exfalso. exact (Hw w Hin (eq_sym Hfw)).
    - now apply Hst1. }
  assert (Hsome : forall k v, st' !! k = Some v -> k <> "subjects:" ++ S /\ st !! k = Some v
                  /\ existsb (fun w => String.eqb (f w) k) scan1 = false).
  { intros k v Hk. rewrite Hlk in Hk. destruct existsb; [discriminate|].
    destruct (String.eq_dec k ("subjects:" ++ S)) as [->|Hne].
    - unfold st1, kv_del in Hk. now rewrite lookup_delete_eq in Hk.
    - rewrite Hst1 in Hk by exact Hne. auto. }
  split; [|split; [exact Hkeep|split; [|split]]].
  - intros k [->|(w & Hin & ->)]; rewrite Hlk.
    + destruct existsb; [reflexivity|]. unfold st1, kv_del. apply lookup_delete_eq.
    + replace (existsb _ scan1) with true; [reflexivity|]. symmetry.
      apply existsb_exists. exists w. split; [now apply Hscan|]. apply String.eqb_refl.
  - intros Hsubj v Hin Hid. apply getByPrefix_In in Hin as (k & Hk & Hp).
    apply Hsome in Hk as (Hne & Hk & _). exact (Hne (Hsubj k v Hk Hp Hid)).
  - intros Hweeks. unfold list_weeks. rewrite getByPrefix_nil; [reflexivity|].
    intros k v Hk. destruct (String.prefix _ k) eqn:Hp; [exfalso|reflexivity].
    apply Hsome in Hk as (_ & Hk & Hex).
    assert (Hin : In v scan1) by (apply Hscan, getByPrefix_In; eauto).
    assert (Hfk : String.eqb (f v) k = true)
      by (apply String.eqb_eq; symmetry; exact (Hweeks k v Hk Hp)).
    assert (Ht : existsb (fun w => String.eqb (f w) k) scan1 = true)
      by (apply existsb_exists; eauto).
    congruence.
  - intros k Hne Hp. apply Hkeep; [exact Hne|]. intros w _ ->.
    replace (f w) with (("weeks:" ++ S ++ ":") ++ tmpl (prop w "id")) in Hp
      by (unfold f; now rewrite !str_app_assoc).
    rewrite prefix_app in Hp. discriminate.
Qed.

Lemma delete_subject_by_namespace_witness :
  let st' := (delete_subject demo_env demo_subjects_st demo_auth "S1").2 in
  length (list_subjects demo_subjects_st) = 2
  /\ length (list_weeks demo_subjects_st "S1") = 2
  /\ st' !! "weeks:S1:w2" = None
  /\ (forall v, In v (list_subjects st') -> prop v "id" <> Some (JStr "S1"))
  /\ list_weeks st' "S1" = []
  /\ st' !! "weeks:S2:w3" = demo_subjects_st !! "weeks:S2:w3"
  /\ st' !! "subjects:S2" = demo_subjects_st !! "subjects:S2".
Proof.
  intros st'.
  assert (Hm : map_to_list demo_subjects_st =
    [("weeks:S1:w1", demo_week "w1" "S1" 1); ("weeks:S1:w2", demo_week "w2" "S1" 2);
     ("weeks:S2:w3", demo_week "w3" "S2" 1); ("subjects:S1", demo_subject "S1");
     ("subjects:S2", demo_subject "S2");
     ("users:u", JObj [("id", JStr "u"); ("role", JStr "admin")])])
    by (vm_compute; reflexivity).
  assert (Ha : authorize_admin demo_env demo_subjects_st demo_auth = inr "u")
    by (vm_compute; reflexivity).
  assert (Hw : forall k v, demo_subjects_st !! k = Some v ->
            String.prefix ("weeks:" ++ "S1" ++ ":") k = true ->
            k = "weeks:" ++ "S1" ++ ":" ++ tmpl (prop v "id")).
  { store_cases Hm. }
  assert (Hs : forall k v, demo_subjects_st !! k = Some v -> String.prefix "subjects:" k = true ->
            prop v "id" = Some (JStr "S1") -> k = "subjects:" ++ "S1").
  { store_cases Hm. }
  assert (Hscan : getByPrefix ("weeks:" ++ "S1" ++ ":") demo_subjects_st
                  = [demo_week "w1" "S1" 1; demo_week "w2" "S1" 2])
    by (vm_compute; reflexivity).
  pose proof (delete_subject_by_namespace demo_env demo_subjects_st demo_auth "u" "S1" Ha)
    as Hc.
  cbv zeta in Hc. destruct Hc as (Hdel & Hkeep & Hsub & Hwk & Hout).
  split; [vm_compute; reflexivity|]. split; [vm_compute; reflexivity|].
  split; [|split; [exact (Hsub Hs)|split; [exact (Hwk Hw)|split]]].
  - apply Hdel. right. exists (demo_week "w2" "S1" 2). rewrite Hscan.
    split; [right; left; reflexivity|reflexivity].
  - apply Hout; vm_compute; [discriminate|reflexivity].
  - apply Hkeep; [discriminate|]. rewrite Hscan.
    intros w [<-|[<-|[]]]; vm_compute; discriminate.
Defined.

(** ** Updating a week twice *)

Lemma week_key_inj (S S2 W : string) :
  "weeks:" ++ S2 ++ ":" ++ W = "weeks:" ++ S ++ ":" ++ W -> S2 = S.
Proof.
  intros H. apply (f_equal list_of_str) in H. rewrite !list_of_str_app in H.
  apply app_inv_head in H. apply app_inv_tail in H.
  rewrite <- (str_of_list_of_str S2), <- (str_of_list_of_str S), H. reflexivity.
Qed.

(** Claim C10 (amended): [PUT /admin/weeks/:id] writes the merged record
    under [weeks:<subjectId field of the week it found>:<id>]. When that
    week is stored under the key built from its own [subjectId] and id, the
    merged record replaces it: no key is added or removed, a payload with
    another [subjectId] changes the field, and the week stays listed under
    its original subject. If that payload moved the week to another
    subject [S2] (and the week is the only stored one with its id), a second
    update writes the new key [weeks:S2:<id>] and leaves the old record in
    place. *)
Theorem update_week_keeps_key (E : env) (st : store) (authorization : option string)
  (uid W : string) (u : list (string * json)) (week : json)
  (Hauth : authorize_admin E st authorization = inr uid)
  (Hfind : find_week W (getByPrefix "weeks:" st) = Some week)
  (Hnd : NoDup (map fst u)) :
  let K := "weeks:" ++ tmpl (prop week "subjectId") ++ ":" ++ W in
  let st' := (update_week E st authorization W (Some (JObj u))).2 in
  st' = <[K := spread2 week (JObj u)]> st
  /\ (forall S, prop week "subjectId" = Some (JStr S) -> st !! K = Some week ->
      (forall k, is_Some (st' !! k) <-> is_Some (st !! k))
      /\ prop (spread2 week (JObj u)) "subjectId"
         = match assoc "subjectId" u with Some v => Some v | None => Some (JStr S) end
      /\ In (spread2 week (JObj u)) (list_weeks st' S))
  /\ (forall S S2 u2, prop week "subjectId" = Some (JStr S) -> st !! K = Some week ->
      (forall k v, st !! k = Some v -> String.prefix "weeks:" k = true ->
       is_str (prop v "id") W = true -> k = K) ->
      assoc "subjectId" u = Some (JStr S2) -> S2 <> S -> assoc "id" u = None ->
      let st'' := (update_week E st' authorization W (Some (JObj u2))).2 in
      st'' !! K = Some (spread2 week (JObj u))
      /\ st'' !! ("weeks:" ++ S2 ++ ":" ++ W) = Some (spread2 (spread2 week (JObj u)) (JObj u2))
      /\ "weeks:" ++ S2 ++ ":" ++ W <> K).
Proof.
  intros K st'.
  assert (Hst : st' = <[K := spread2 week (JObj u)]> st).
  { subst st'. unfold update_week. rewrite Hauth, Hfind. reflexivity. }
  destruct (find_week_obj _ _ _ Hfind) as [wl Hwl].
  assert (HKw : String.prefix "weeks:" K = true) by apply prefix_app.
  split; [exact Hst|split].
  - intros S Hsub Hkey. rewrite Hst. split; [|split].
    + intros k. destruct (String.eq_dec k K) as [->|Hne].
      * rewrite lookup_insert_eq, Hkey. split; intros _; eexists; reflexivity.
      * rewrite lookup_insert_ne by congruence. reflexivity.
    + rewrite Hwl, prop_spread2 by exact Hnd. now rewrite <- Hwl, Hsub.
    + unfold list_weeks. rewrite sort_by_week_number_perm.
      apply getByPrefix_In. exists K. split; [apply lookup_insert_eq|].
      unfold K. rewrite Hsub.
      replace ("weeks:" ++ tmpl (Some (JStr S)) ++ ":" ++ W)
        with (("weeks:" ++ S ++ ":") ++ W) by (now rewrite !str_app_assoc).
      apply prefix_app.
  - intros S S2 u2 Hsub Hkey Huniq Hs2 Hne Hid st''.
    set (merged := spread2 week (JObj u)).
    assert (Hmid : prop merged "id" = prop week "id").
    { unfold merged. rewrite Hwl, prop_spread2 by exact Hnd. now rewrite Hid. }
    assert (Hmsub : prop merged "subjectId" = Some (JStr S2)).
    { unfold merged. rewrite Hwl, prop_spread2 by exact Hnd. now rewrite Hs2. }
    assert (Hwid : is_str (prop week "id") W = true).
    { unfold find_week in Hfind. now apply find_some in Hfind as [_ Hp]. }
    assert (Hauth' : authorize_admin E st' authorization = inr uid).
    { rewrite Hst, auth_insert_other; [exact Hauth|]. intros x. apply weeks_not_users. }
    assert (Hfind' : find_week W (getByPrefix "weeks:" st') = Some merged).
    { unfold find_week. apply find_unique.
      - apply getByPrefix_In. exists K. rewrite Hst. split; [apply lookup_insert_eq|exact HKw].
      - now rewrite Hmid.
      - intros x Hx Hxid. apply getByPrefix_In in Hx as (k & Hk & Hp).
        rewrite Hst in Hk. destruct (String.eq_dec k K) as [->|Hk'].
        + rewrite lookup_insert_eq in Hk. now injection Hk.
        + rewrite lookup_insert_ne in Hk by congruence.
          exfalso. exact (Hk' (Huniq k x Hk Hp Hxid)). }
    assert (Hne' : "weeks:" ++ S2 ++ ":" ++ W <> K).
    { unfold K. rewrite Hsub. intros H. apply Hne. exact (week_key_inj S S2 W H). }
    assert (Hst'' : st'' = <["weeks:" ++ S2 ++ ":" ++ W := spread2 merged (JObj u2)]> st').
    { subst st''. unfold update_week. rewrite Hauth', Hfind', Hmsub. reflexivity. }
    rewrite Hst''. split; [|split; [apply lookup_insert_eq|exact Hne']].
    rewrite lookup_insert_ne by congruence. rewrite Hst. apply lookup_insert_eq.
Qed.

Lemma update_week_keeps_key_witness :
  exists merged,
    demo_st3 !! "weeks:S1:week_1" = Some merged
    /\ prop merged "subjectId" = Some (JStr "S2")
    /\ demo_st3 !! "weeks:S2:week_1" = Some (spread2 merged (JObj [("title", JStr "Week one")])).
Proof.
  set (week := JObj [("id", JStr "week_1"); ("subjectId", JStr "S1");
                     ("weekNumber", JNum 1); ("title", JStr "Week 1");
                     ("videoLinks", JArr []); ("audioLinks", JArr []);
                     ("pdfLinks", JArr []); ("questions", JArr []);
                     ("published", JBool false); ("createdAt", JStr "T")]).
  assert (Hm : map_to_list demo_st1 =
    [("weeks:S1:week_1", week);
     ("users:u", JObj [("id", JStr "u"); ("role", JStr "admin")])])
    by (vm_compute; reflexivity).
  assert (Ha : authorize_admin demo_env demo_st1 demo_auth = inr "u")
    by (vm_compute; reflexivity).
  assert (Hf : find_week "week_1" (getByPrefix "weeks:" demo_st1) = Some week)
    by (vm_compute; reflexivity).
  assert (Hnd : NoDup (map fst [("subjectId", JStr "S2")]))
    by (apply NoDup_ListNoDup; repeat constructor; intros []).
  pose proof (update_week_keeps_key demo_env demo_st1 demo_auth "u" "week_1"
                [("subjectId", JStr "S2")] week Ha Hf Hnd) as Hc.
  cbv zeta in Hc. destruct Hc as (_ & _ & Hmove).
  assert (Hu : forall k v, demo_st1 !! k = Some v -> String.prefix "weeks:" k = true ->
            is_str (prop v "id") "week_1" = true ->
            k = "weeks:" ++ tmpl (prop week "subjectId") ++ ":" ++ "week_1").
  { store_cases Hm. }
  destruct (Hmove "S1" "S2" [("title", JStr "Week one")]) as (Hold & Hnew & _);
    [reflexivity|vm_compute; reflexivity|exact Hu|reflexivity|discriminate|reflexivity|].
  exists (spread2 week (JObj [("subjectId", JStr "S2")])). split; [|split].
  - exact Hold.
  - vm_compute. reflexivity.
  - exact Hnew.
Defined.

(** ** The YouTube regular expression *)

Lemma starts_with_iff (p l : list ascii) :
  starts_with p l = true <-> exists r, l = (p ++ r)%list.
Proof.
  split; [intros H; eexists; exact (starts_with_app p l H)|].
  intros [r ->]. apply starts_with_app_l.
Qed.

Section YouTubeRegex.

Local Arguments is_word_char : simpl never.
Local Arguments is_line_terminator : simpl never.

Lemma alt_match_marker (m rest : list ascii) :
  yt_marker m -> alt_match (m ++ rest) = Some (length m).
Proof.
  intros [(c & -> & Hc)|[->|[(c & -> & Hc)|[->| ->]]]]; unfold alt_match, char_at; simpl;
    try rewrite Hc; reflexivity.
Qed.

Lemma nth_error_drop {A} (l : list A) (k : nat) (c : A) :
  nth_error l k = Some c -> drop k l = c :: drop (S k) l.
Proof.
  revert l; induction k as [|k IH]; intros [|x l] H; try discriminate.
  - injection H as ->. reflexivity.
  - exact (IH l H).
Qed.

Lemma char_at_drop (test : ascii -> bool) (k : nat) (l : list ascii) :
  char_at test k l = true -> exists c, test c = true /\ drop k l = c :: drop (S k) l.
Proof.
  unfold char_at. destruct (nth_error l k) as [c|] eqn:H; [|discriminate].
  intros Hc. exists c. split; [exact Hc|]. now apply nth_error_drop.
Qed.

Lemma alt_match_some (l : list ascii) (n : nat) :
  alt_match l = Some n -> exists m rest, l = (m ++ rest)%list /\ yt_marker m /\ length m = n.
Proof.
  unfold alt_match.
  destruct (starts_with (list_of_str "youtu") l
            && char_at (fun c => negb (is_line_terminator c)) 5 l
            && starts_with (list_of_str "be/") (drop 6 l)) eqn:HY.
  { apply andb_prop in HY as [HY H3]. apply andb_prop in HY as [H1 H2].
    apply starts_with_app in H1. apply starts_with_app in H3.
    apply char_at_drop in H2 as (c & Hc & H2). apply negb_true_iff in Hc.
    intros E; injection E as <-.
    exists (list_of_str "youtu" ++ c :: list_of_str "be/")%list, (drop 3 (drop 6 l)).
    split; [|split; [left; eauto|reflexivity]].
    rewrite H1 at 1. change (length (list_of_str "youtu")) with 5. rewrite H2.
    rewrite H3 at 1. reflexivity. }
  destruct (starts_with (list_of_str "v/") l) eqn:HV.
  { apply starts_with_iff in HV as [r ->]. intros E; injection E as <-.
    exists (list_of_str "v/"), r. split; [reflexivity|split; [right; left; reflexivity|reflexivity]]. }
  destruct (starts_with (list_of_str "/u/") l && char_at is_word_char 3 l
            && starts_with (list_of_str "/") (drop 4 l)) eqn:HU.
  { apply andb_prop in HU as [HU H3]. apply andb_prop in HU as [H1 H2].
    apply starts_with_app in H1. apply starts_with_app in H3.
    apply char_at_drop in H2 as (c & Hc & H2).
    intros E; injection E as <-.
    exists (list_of_str "/u/" ++ c :: list_of_str "/")%list, (drop 1 (drop 4 l)).
    split; [|split; [right; right; left; eauto|reflexivity]].
    rewrite H1 at 1. change (length (list_of_str "/u/")) with 3. rewrite H2.
    rewrite H3 at 1. reflexivity. }
  destruct (starts_with (list_of_str "embed/") l) eqn:HE.
  { apply starts_with_iff in HE as [r ->]. intros E; injection E as <-.
    exists (list_of_str "embed/"), r.
    split; [reflexivity|split; [do 3 right; left; reflexivity|reflexivity]]. }
  destruct (starts_with (list_of_str "watch?") l) eqn:HW; [|discriminate].
  apply starts_with_iff in HW as [r ->]. intros E; injection E as <-.
  exists (list_of_str "watch?"), r. split; [reflexivity|split; [do 4 right; reflexivity|reflexivity]].
Qed.

Lemma opt_taken_skip (c : ascii) (l l' : list ascii) :
  opt_taken c l l' <-> l' = skip_opt c l.
Proof.
  unfold opt_taken, skip_opt. destruct l as [|x l].
  - split; [intros [H|[-> _]]; [discriminate|reflexivity]|].
    intros ->. right. split; [reflexivity|discriminate].
  - destruct (Ascii.eqb_spec c x) as [->|Hne]; split.
    + intros [H|[-> H]]; [injection H as H; symmetry; exact H|].
      exfalso. apply H. reflexivity.
    + intros ->. left. reflexivity.
    + intros [H|[-> _]]; [inversion H; congruence|reflexivity].
    + intros ->. right. split; [reflexivity|].
      intros H. injection H as H. congruence.
Qed.

Lemma id_run_cons (c : ascii) (l : list ascii) :
  id_run (c :: l) = if yt_sep c then [] else c :: id_run l.
Proof. reflexivity. Qed.

Lemma id_run_spec (r g : list ascii) :
  (exists tail, r = (g ++ tail)%list /\ (forall c, In c g -> yt_sep c = false)
     /\ (tail = [] \/ exists c t, tail = c :: t /\ yt_sep c = true))
  <-> g = id_run r.
Proof.
  revert r; induction g as [|x g IH]; intros r; split.
  - intros (tail & -> & _ & [->|(c & t & -> & Hc)]); [reflexivity|].
    cbn [app]. rewrite id_run_cons, Hc. reflexivity.
  - intros Hg. destruct r as [|c t].
    + exists []. split; [reflexivity|split; [intros c []|left; reflexivity]].
    + rewrite id_run_cons in Hg. destruct (yt_sep c) eqn:Hc; [|discriminate].
      exists (c :: t). split; [reflexivity|split; [intros c' []|right; eauto]].
  - intros (tail & -> & Hall & Ht). cbn [app].
    rewrite id_run_cons, (Hall x (or_introl eq_refl)). f_equal. apply IH.
    exists tail. split; [reflexivity|split; [|exact Ht]].
    intros c Hc. apply Hall. right. exact Hc.
  - intros Hg. destruct r as [|c t]; [discriminate|].
    rewrite id_run_cons in Hg. destruct (yt_sep c) eqn:Hc; [discriminate|].
    injection Hg as -> Hg. apply IH in Hg as (tail & -> & Hall & Ht).
    exists tail. split; [reflexivity|split; [|exact Ht]].
    intros c' [<-|Hc']; [exact Hc|exact (Hall c' Hc')].
Qed.

Lemma yt_token_spec (rest g : list ascii) :
  yt_token rest g <-> g = id_run (skip_opt "=" (skip_opt "v" (skip_opt "?" rest)))%char.
Proof.
  unfold yt_token. split.
  - intros (r1 & r2 & r3 & tail & H1 & H2 & H3 & H4 & H5 & H6).
    apply opt_taken_skip in H1, H2, H3. rewrite H1 in H2. rewrite H2 in H3.
    rewrite H3 in H4. apply id_run_spec. exists tail. auto.
  - intros Hg. apply id_run_spec in Hg as (tail & Ht & Hall & Htl).
    exists (skip_opt "?" rest)%char, (skip_opt "v" (skip_opt "?" rest))%char,
      (skip_opt "=" (skip_opt "v" (skip_opt "?" rest)))%char, tail.
    split; [apply opt_taken_skip; reflexivity|].
    split; [apply opt_taken_skip; reflexivity|].
    split; [apply opt_taken_skip; reflexivity|].
    auto.
Qed.

Lemma on_first_line_nil : on_first_line [].
Proof. intros c []. Qed.

Lemma on_first_line_cons (c : ascii) (l : list ascii) :
  on_first_line (c :: l) <-> is_line_terminator c = false /\ on_first_line l.
Proof.
  unfold on_first_line. split.
  - intros H. split; [apply H; left; reflexivity|].
    intros c' Hc'. apply H. right. exact Hc'.
  - intros [Hc H] c' [<-|Hc']; [exact Hc|exact (H c' Hc')].
Qed.

(** [.*] can take [i] characters exactly when the first [i] characters
    exist and hold no line terminator. *)
Lemma line_length_spec (l : list ascii) (i : nat) :
  i <= line_length l <-> i <= length l /\ on_first_line (take i l).
Proof.
  revert i; induction l as [|c l IH]; intros i.
  - cbn [line_length length]. rewrite take_nil.
    split; [intros H; split; [exact H|apply on_first_line_nil]|intros [H _]; exact H].
  - destruct i as [|i].
    + split; [intros _; split; [lia|apply on_first_line_nil]|intros _; lia].
    + cbn [line_length length]. change (take (S i) (c :: l)) with (c :: take i l).
      rewrite on_first_line_cons. destruct (is_line_terminator c).
      * split; [lia|intros [_ [H _]]; discriminate].
      * rewrite <- !Nat.succ_le_mono, IH.
        split; [intros [H1 H2]; auto|intros [H1 [_ H2]]; auto].
Qed.

Lemma match_from_eq (k : nat) (l : list ascii) :
  match_from k l =
    match alt_match (drop k l) with
    | Some n => Some (id_run (skip_opt "=" (skip_opt "v" (skip_opt "?" (drop (k + n) l)))))
    | None => match k with O => None | S k' => match_from k' l end
    end%char.
Proof. destruct k; cbn [match_from]; destruct (alt_match _); reflexivity. Qed.

Lemma match_from_none (k : nat) (l : list ascii) :
  match_from k l = None <-> forall i, i <= k -> alt_match (drop i l) = None.
Proof.
  induction k as [|k IH]; rewrite match_from_eq.
  - destruct (alt_match (drop 0 l)) eqn:H.
    + split; [discriminate|intros Hall; rewrite Hall in H; [discriminate|lia]].
    + split; [intros _ i Hi; replace i with 0 by lia; exact H|reflexivity].
  - destruct (alt_match (drop (S k) l)) eqn:H.
    + split; [discriminate|intros Hall; rewrite Hall in H; [discriminate|lia]].
    + cbv beta iota. rewrite IH. split.
      * intros Hk i Hi. destruct (Nat.eq_dec i (S k)) as [->|Hne]; [exact H|].
        apply Hk. lia.
      * intros Hall i Hi. apply Hall. lia.
Qed.

Lemma match_from_some (k : nat) (l g : list ascii) :
  match_from k l = Some g ->
  exists i n, i <= k /\ alt_match (drop i l) = Some n
    /\ g = id_run (skip_opt "=" (skip_opt "v" (skip_opt "?" (drop (i + n) l))))%char
    /\ forall j, i < j -> j <= k -> alt_match (drop j l) = None.
Proof.
  induction k as [|k IH]; rewrite match_from_eq.
  - destruct (alt_match (drop 0 l)) as [n|] eqn:H; [|discriminate].
    intros E. injection E as <-. exists 0, n.
    split; [lia|split; [exact H|split; [reflexivity|intros j Hj1 Hj2; lia]]].
  - destruct (alt_match (drop (S k) l)) as [n|] eqn:H.
    + intros E. injection E as <-. exists (S k), n.
      split; [lia|split; [exact H|split; [reflexivity|intros j Hj1 Hj2; lia]]].
    + cbv beta iota. intros Hk. apply IH in Hk as (i & n & Hi & Hn & Hg & Hj).
      exists i, n. split; [lia|split; [exact Hn|split; [exact Hg|]]].
      intros j Hj1 Hj2. destruct (Nat.eq_dec j (S k)) as [->|Hne]; [exact H|].
      apply Hj; lia.
Qed.

(** A marker after a first-line prefix is seen by [alt_match] where it starts. *)
Lemma marker_position (pre m rest : list ascii) :
  on_first_line pre -> yt_marker m ->
  length pre <= line_length (pre ++ m ++ rest)%list
  /\ alt_match (drop (length pre) (pre ++ m ++ rest)%list) = Some (length m)
  /\ drop (length pre + length m) (pre ++ m ++ rest)%list = rest.
Proof.
  intros Hpre Hm. split; [|split].
  - apply line_length_spec. rewrite take_app_length.
    split; [rewrite length_app; lia|exact Hpre].
  - rewrite drop_app_length. apply alt_match_marker. exact Hm.
  - rewrite <- drop_drop, drop_app_length, drop_app_length. reflexivity.
Qed.

(** Conversely, what [alt_match] sees within reach of [.*] is a marker. *)
Lemma marker_at (l : list ascii) (i n : nat) :
  i <= line_length l -> alt_match (drop i l) = Some n ->
  exists m rest, l = (take i l ++ m ++ rest)%list /\ on_first_line (take i l)
    /\ length (take i l) = i /\ yt_marker m /\ length m = n /\ drop (i + n) l = rest.
Proof.
  intros Hi Hn. apply line_length_spec in Hi as [Hlen Hpre].
  apply alt_match_some in Hn as (m & rest & Hd & Hm & <-).
  exists m, rest.
  split; [|split; [exact Hpre|split; [apply length_take_le; exact Hlen|]]].
  - rewrite <- Hd. symmetry. apply take_drop.
  - split; [exact Hm|split; [reflexivity|]].
    rewrite <- drop_drop, Hd. apply drop_app_length.
Qed.

Lemma match_from_spec (l g : list ascii) :
  match_from (line_length l) l = Some g <-> yt_rightmost l g.
Proof.
  unfold yt_rightmost. split.
  - intros Hs. destruct (match_from_some _ _ _ Hs) as (i & n & Hi & Hn & Hg & Hj).
    destruct (marker_at l i n Hi Hn) as (m & rest & Hl & Hpre & Hlen & Hm & Hmn & Hrest).
    exists (take i l), m, rest.
    split; [exact Hl|split; [exact Hpre|split; [exact Hm|split]]].
    + apply yt_token_spec. rewrite <- Hrest. exact Hg.
    + intros pre' m' rest' Hl' Hpre' Hm'. rewrite Hlen.
      destruct (marker_position pre' m' rest' Hpre' Hm') as (Hle & Ha & _).
      rewrite <- Hl' in Hle, Ha.
      destruct (Nat.le_gt_cases (length pre') i) as [H|H]; [exact H|].
      rewrite (Hj _ H Hle) in Ha. discriminate.
  - intros (pre & m & rest & Hl & Hpre & Hm & Ht & Hmax).
    destruct (marker_position pre m rest Hpre Hm) as (Hle & Ha & Hd).
    rewrite <- Hl in Hle, Ha, Hd.
    destruct (match_from (line_length l) l) as [g0|] eqn:Hs.
    + destruct (match_from_some _ _ _ Hs) as (i & n & Hi & Hn & Hg & Hj).
      destruct (marker_at l i n Hi Hn)
        as (m' & rest' & Hl' & Hpre' & Hlen' & Hm' & Hmn' & Hrest').
      assert (Hi1 : i <= length pre).
      { rewrite <- Hlen'. exact (Hmax _ _ _ Hl' Hpre' Hm'). }
      assert (Hi2 : ~ i < length pre).
      { intros Hlt. rewrite (Hj _ Hlt Hle) in Ha. discriminate. }
      assert (Hieq : i = length pre) by lia. subst i.
      rewrite Ha in Hn. injection Hn as <-.
      rewrite Hd in Hg. apply yt_token_spec in Ht. congruence.
    + pose proof (proj1 (match_from_none _ _) Hs (length pre) Hle) as Hn. congruence.
Qed.

Lemma match_from_spec_none (l : list ascii) :
  match_from (line_length l) l = None <-> yt_no_marker l.
Proof.
  unfold yt_no_marker. rewrite match_from_none. split.
  - intros Hall pre m rest Hl Hpre Hm.
    destruct (marker_position pre m rest Hpre Hm) as (Hle & Ha & _).
    rewrite <- Hl in Hle, Ha. rewrite Hall in Ha by exact Hle. discriminate.
  - intros Hno i Hi. destruct (alt_match (drop i l)) as [n|] eqn:Hn; [|reflexivity].
    destruct (marker_at l i n Hi Hn) as (m & rest & Hl & Hpre & _ & Hm & _).
    exfalso. exact (Hno _ _ _ Hl Hpre Hm).
Qed.

End YouTubeRegex.

(** Claim C7 (amended). The capture of the YouTube pattern is the token read
    after the rightmost marker ([youtu<c>be/], [v/], [/u/<word character>/],
    [embed/] or [watch?]) that starts on the first line of the URL: an
    optional [?], [v] and [=] are taken, then the run of characters up to the
    next [#], [&] or [?]. There is no capture exactly when no marker starts on
    the first line. [extractYouTubeId] returns the capture when it is 11
    characters long, and null when there is no marker or the capture has any
    other length. *)
Theorem extractYouTubeId_token_length (u : string) :
  (forall i, extractYouTubeId u = Some i <->
     yt_rightmost (list_of_str u) (list_of_str i) /\ String.length i = 11)
  /\ (forall g, youtube_group u = Some g <-> yt_rightmost (list_of_str u) (list_of_str g))
  /\ (youtube_group u = None <-> yt_no_marker (list_of_str u))
  /\ (extractYouTubeId u = None <->
      yt_no_marker (list_of_str u)
      \/ exists g, yt_rightmost (list_of_str u) (list_of_str g) /\ String.length g <> 11).
Proof.
  assert (H2 : forall g, youtube_group u = Some g <-> yt_rightmost (list_of_str u) (list_of_str g)).
  { intros g. unfold youtube_group. cbv zeta. rewrite <- match_from_spec.
    destruct (match_from _ _) as [g0|]; cbn [option_map]; split.
    - intros H. injection H as <-. rewrite list_of_str_of_list. reflexivity.
    - intros H. injection H as ->. rewrite str_of_list_of_str. reflexivity.
    - discriminate.
    - discriminate. }
  assert (H3 : youtube_group u = None <-> yt_no_marker (list_of_str u)).
  { unfold youtube_group. cbv zeta. rewrite <- match_from_spec_none.
    destruct (match_from _ _); cbn [option_map]; split; intros; congruence. }
  split; [|split; [exact H2|split; [exact H3|]]].
  - intros i. rewrite <- H2. unfold extractYouTubeId. destruct (youtube_group u) as [g|].
    + destruct (Nat.eqb_spec (String.length g) 11) as [E|E]; split.
      * intros H. injection H as <-. split; [reflexivity|exact E].
      * intros [H _]. exact H.
      * discriminate.
      * intros [H1 H1']. injection H1 as <-. contradiction.
    + split; [discriminate|intros [H _]; discriminate].
  - unfold extractYouTubeId. destruct (youtube_group u) as [g|] eqn:Hy.
    + destruct (Nat.eqb_spec (String.length g) 11) as [E|E]; split.
      * discriminate.
      * intros [Hn|(g' & Hg' & Hlen)].
        -- apply H3 in Hn. congruence.
        -- apply H2 in Hg'. injection Hg' as <-. contradiction.
      * intros _. right. exists g. split; [apply H2; reflexivity|exact E].
      * reflexivity.
    + split; [intros _; left; apply H3; reflexivity|reflexivity].
Qed.

Lemma extractYouTubeId_token_length_witness :
  yt_rightmost (list_of_str "https://www.youtube.com/watch?v=dQw4w9WgXcQ&t=embed/AAAAAAAAAAA")
    (list_of_str "AAAAAAAAAAA")
  /\ yt_no_marker (list_of_str "https://www.youtube.com/?v=dQw4w9WgXcQ")
  /\ extractYouTubeId "https://youtu.be/abcdefghij" = None
  /\ yt_rightmost (list_of_str "https://youtu.be/abcdefghij") (list_of_str "abcdefghij").
Proof.
  split; [|split; [|split]].
  - apply (extractYouTubeId_token_length
             "https://www.youtube.com/watch?v=dQw4w9WgXcQ&t=embed/AAAAAAAAAAA").
    vm_compute. reflexivity.
  - apply (extractYouTubeId_token_length "https://www.youtube.com/?v=dQw4w9WgXcQ").
    vm_compute. reflexivity.
  - vm_compute. reflexivity.
  - apply (extractYouTubeId_token_length "https://youtu.be/abcdefghij").
    vm_compute. reflexivity.
Defined.
